(** * Speaker recommendation engine: scoring, fan-out, ranking

    A shallow embedding of the scoring-and-ranking core of the conference
    speaker recommender:

    - [src/llm/openai_client.py]   [OpenAIClient.generate_text]
    - [src/llm/anthropic_client.py] the JSON extraction at the end of
                                    [AnthropicClient.extract_structured_data]
    - [src/llm/speaker_matcher.py] [SpeakerMatcher.score_speaker],
                                    [SpeakerMatcher.recommend_speakers]
    - [backend.py]                  [match_speakers]

    Python text is modelled by [string], one [ascii] per code point (so the
    model covers text over the code points 0..255).  Values read from JSON
    are the inductive [json]: the replies of the model and the entries of
    the speaker catalog alike, since nothing in the code checks what
    [json.load] returned.  [async def] bodies are terms of a small free
    monad [coro] whose only effect is the awaited chat-completion call;
    [asyncio.gather] is an interpreter of a list of such terms that is
    driven by a completion schedule. *)

From Stdlib Require Import ZArith QArith String Ascii List Bool Lia.
From Stdlib Require Import Permutation Sorted.
From stdpp Require Import base list strings gmap pretty.

Set Warnings "-register-all,-abstract-large-number".

(** ** Python text *)

Module Str.

(** The double quote, written by its code point. *)
Definition dq : string := String (ascii_of_nat 34) EmptyString.

Definition quoted (s : string) : string := dq +:+ s +:+ dq.

(** [s[:n]] *)
Fixpoint slice_to (n : nat) (s : string) : string :=
  match n, s with
  | S n', String c s' => String c (slice_to n' s')
  | _, _ => EmptyString
  end.

(** [s[n:]] *)
Fixpoint slice_from (n : nat) (s : string) : string :=
  match n, s with
  | S n', String _ s' => slice_from n' s'
  | _, _ => s
  end.

(** [str.isspace] on one character: the code points 9..13, 28..32, 133
    and 160. *)
Definition isspace (c : ascii) : bool :=
  let n := nat_of_ascii c in
  ((9 <=? n) && (n <=? 13)) || ((28 <=? n) && (n <=? 32))
  || (n =? 133) || (n =? 160).

Fixpoint lstrip (s : string) : string :=
  match s with
  | EmptyString => EmptyString
  | String c s' => if isspace c then lstrip s' else s
  end.

Fixpoint rstrip (s : string) : string :=
  match s with
  | EmptyString => EmptyString
  | String c s' =>
      match rstrip s' with
      | EmptyString => if isspace c then EmptyString else String c EmptyString
      | r => String c r
      end
  end.

(** [s.strip()] *)
Definition strip (s : string) : string := rstrip (lstrip s).

(** [s.startswith(p)] *)
Fixpoint startswith (p s : string) : bool :=
  match p, s with
  | EmptyString, _ => true
  | String a p', String b s' => if Ascii.eqb a b then startswith p' s' else false
  | String _ _, EmptyString => false
  end.

(** [s.find(sub)]: index of the leftmost occurrence. *)
Fixpoint find (sub s : string) : option nat :=
  if startswith sub s then Some 0
  else match s with
       | EmptyString => None
       | String _ s' => S <$> find sub s'
       end.

(** [sub in s] *)
Fixpoint contains (sub s : string) : bool :=
  startswith sub s ||
  match s with
  | EmptyString => false
  | String _ s' => contains sub s'
  end.

(** [s.split(sep)] for a non-empty [sep]: scan left to right; [skip]
    counts the characters of a matched separator still to be passed. *)
Fixpoint split_from (sep : string) (skip : nat) (s : string) : list string :=
  match s with
  | EmptyString => [EmptyString]
  | String c s' =>
      match skip with
      | S k => split_from sep k s'
      | O =>
          if startswith sep s
          then EmptyString :: split_from sep (String.length sep - 1) s'
          else match split_from sep 0 s' with
               | piece :: pieces => String c piece :: pieces
               | [] => [String c EmptyString]
               end
      end
  end.

Definition split (sep s : string) : list string := split_from sep 0 s.

(** [sep.join(items)] *)
Fixpoint join (sep : string) (items : list string) : string :=
  match items with
  | [] => EmptyString
  | x :: items' =>
      match items' with
      | [] => x
      | _ :: _ => x +:+ sep +:+ join sep items'
      end
  end.

End Str.

(** ** Exceptions and results *)

Inductive exn_class :=
  | Exception | TypeError | AttributeError | ValueError | IndexError
  | KeyError | JSONDecodeError | ValidationError | APIError
  | HTTPException (status_code : nat).

(** An exception object: its class and [str(e)] (for an [HTTPException],
    its [detail]). *)
Record exn := mk_exn { exn_cls : exn_class; exn_str : string }.

Inductive result (A : Type) : Type :=
  | Ok (a : A)
  | Err (e : exn).
Arguments Ok {A} a.
Arguments Err {A} e.

Definition result_bind {A B} (f : A → result B) (m : result A) : result B :=
  match m with
  | Ok a => f a
  | Err e => Err e
  end.

#[export] Instance result_ret : MRet result := @Ok.
#[export] Instance result_mbind : MBind result := @result_bind.

(** ** Python values read from JSON *)

(** A [float]: not-a-number, an infinity, or a finite value (a rational). *)
Inductive pyfloat :=
  | FNaN
  | FInf (negative : bool)
  | FFin (q : Q).

Inductive json :=
  | JNull
  | JBool (b : bool)
  | JInt (z : Z)
  | JFloat (f : pyfloat)
  | JStr (s : string)
  | JList (l : list json)
  | JDict (d : gmap string json).

(** [type(v).__name__] *)
Definition type_name (v : json) : string :=
  match v with
  | JNull => "NoneType"
  | JBool _ => "bool"
  | JInt _ => "int"
  | JFloat _ => "float"
  | JStr _ => "str"
  | JList _ => "list"
  | JDict _ => "dict"
  end.

(** The number a value stands for in a comparison: [bool] is a subclass of
    [int], and an [int] compares with a [float] by exact value. *)
Definition as_number (v : json) : option pyfloat :=
  match v with
  | JBool b => Some (FFin (inject_Z (if b then 1 else 0)))
  | JInt z => Some (FFin (inject_Z z))
  | JFloat f => Some f
  | _ => None
  end.

Definition Qltb (p q : Q) : bool := negb (Qle_bool q p).

(** [a < b] on floats (IEEE order: false whenever a NaN is involved). *)
Definition float_lt (a b : pyfloat) : bool :=
  match a, b with
  | FNaN, _ | _, FNaN => false
  | FInf true, FInf true => false
  | FInf true, _ => true
  | _, FInf true => false
  | FInf false, _ => false
  | FFin _, FInf false => true
  | FFin p, FFin q => Qltb p q
  end.

(** [a >= b] on floats. *)
Definition float_ge (a b : pyfloat) : bool :=
  match a, b with
  | FNaN, _ | _, FNaN => false
  | _, FInf true => true
  | FInf true, _ => false
  | FInf false, _ => true
  | FFin _, FInf false => false
  | FFin p, FFin q => Qle_bool q p
  end.

(** [v >= t] for a [float] [t]: a [TypeError] unless [v] is a number. *)
Definition py_ge (v : json) (t : pyfloat) : result bool :=
  match as_number v with
  | Some x => Ok (float_ge x t)
  | None =>
      Err (mk_exn TypeError
             ("'>=' not supported between instances of '" +:+ type_name v
              +:+ "' and 'float'"))
  end.

(** [v.get(key, default)]: only a [dict] has the method. *)
Definition py_get (v : json) (key : string) (dflt : json) : result json :=
  match v with
  | JDict d => Ok (default dflt (d !! key))
  | _ =>
      Err (mk_exn AttributeError
             ("'" +:+ type_name v +:+ "' object has no attribute 'get'"))
  end.

(** Two things are taken from the interpreter: [repr] of a float, a list
    or a dict (the digits of a float and the quoting of nested text are not
    modelled), and whether a slice object is hashable (it is from Python
    3.12 on), which decides what [d[:n]] raises on a dict. *)
Class Python := {
  py_repr : json → string;
  hashable_slices : bool
}.

Section Values.

Context {python : Python}.

(** [str(v)], which is what an f-string shows for [v]. *)
Definition py_str (v : json) : string :=
  match v with
  | JNull => "None"
  | JBool b => if b then "True" else "False"
  | JInt z => pretty z
  | JStr s => s
  | JFloat _ | JList _ | JDict _ => py_repr v
  end.

(** [v[:n]]: a text and a list are cut; a dict takes the slice for a key,
    which it never holds; no other value can be subscripted. *)
Definition py_slice_to (n : nat) (v : json) : result json :=
  match v with
  | JStr s => Ok (JStr (Str.slice_to n s))
  | JList l => Ok (JList (take n l))
  | JDict _ =>
      Err (if hashable_slices
           then mk_exn KeyError ("slice(None, " +:+ pretty n +:+ ", None)")
           else mk_exn TypeError "unhashable type: 'slice'")
  | JNull | JBool _ | JInt _ | JFloat _ =>
      Err (mk_exn TypeError
             ("'" +:+ type_name v +:+ "' object is not subscriptable"))
  end.

End Values.

(** ** Coroutines

    The body of an [async def]: it returns, raises, or awaits one
    chat-completion call and continues with what the call did (it raised,
    or it produced a message whose content may be [None]). *)

(** The [messages] argument of [chat.completions.create]: role and content. *)
Definition request := list (string * string).

Definition reply := result (option string).

Inductive coro (A : Type) : Type :=
  | Return (a : A)
  | Raise (e : exn)
  | Await (req : request) (k : reply → coro A).
Arguments Return {A} a.
Arguments Raise {A} e.
Arguments Await {A} req k.

Fixpoint coro_bind {A B} (f : A → coro B) (m : coro A) : coro B :=
  match m with
  | Return a => f a
  | Raise e => Raise e
  | Await req k => Await req (λ r, coro_bind f (k r))
  end.

#[export] Instance coro_ret : MRet coro := @Return.
#[export] Instance coro_mbind : MBind coro := @coro_bind.

(** [try: body  except Exception as e: handler e] *)
Fixpoint try_except {A} (body : coro A) (handler : exn → coro A) : coro A :=
  match body with
  | Return a => Return a
  | Raise e => handler e
  | Await req k => Await req (λ r, try_except (k r) handler)
  end.

(** A synchronous call that may raise, used inside a coroutine. *)
Definition lift {A} (r : result A) : coro A :=
  match r with
  | Ok a => Return a
  | Err e => Raise e
  end.

(** [await self.client.chat.completions.create(...)]: an exception of the
    call is raised at the [await]. *)
Definition await_create (messages : request) : coro (option string) :=
  Await messages lift.

(** ** [OpenAIClient.generate_text] *)

(** Truth value of a [str]. *)
Definition truthy (s : string) : bool :=
  match s with
  | EmptyString => false
  | String _ _ => true
  end.

Definition generate_text (prompt : string) (system_prompt : option string)
  : coro string :=
  try_except
    (let messages :=
       match system_prompt with
       | Some sp => if truthy sp then [("system", sp)] else []
       | None => []
       end ++ [("user", prompt)] in
     content ← await_create messages;
     match content with
     | Some text => Return (Str.strip text)
     | None =>
         Raise (mk_exn AttributeError
                  "'NoneType' object has no attribute 'strip'")
     end)
    (λ e, Raise (mk_exn Exception ("Error generating text: " +:+ exn_str e))).

(** ** Speaker records and scored matches *)

(** A catalog entry is the value [json.load] returned for it.  The
    scraper writes a dict whose four keys hold text ([make]); the matcher
    does not check that, so an entry may be any value, with any value under
    a key.  [field] is [speaker.get(key)] on a dict: [None] for an absent
    key. *)
Module Speaker.
Definition t := json.

Definition field (key : string) (speaker : t) : json :=
  match speaker with
  | JDict d => default JNull (d !! key)
  | _ => JNull
  end.

Definition make (name title organization bio : string) : t :=
  JDict (<["name" := JStr name]>
           (<["title" := JStr title]>
              (<["organization" := JStr organization]>
                 {["bio" := JStr bio]}))).
End Speaker.

(** The dict built by [score_speaker]: the four fields as [speaker.get]
    returns them, the score and the reasoning as found in the reply. *)
Module Scored.
Record t := make {
  name : json;
  title : json;
  organization : json;
  bio : json;
  score : json;
  reasoning : json
}.
End Scored.

(** ** [SpeakerMatcher.score_speaker] *)

Module Prompt.

Definition nl : string := String (ascii_of_nat 10) EmptyString.

Fixpoint unlines (ls : list string) : string :=
  match ls with
  | [] => EmptyString
  | l :: ls' => l +:+ nl +:+ unlines ls'
  end.

Definition intro : list string :=
  [ "You are a strategic business advisor evaluating conference networking opportunities. Be STRICT and SELECTIVE.";
    EmptyString;
    "USER'S BUSINESS/GOALS:" ].

Definition rubric : list string :=
  [ "EVALUATION CRITERIA (ALL must be considered):";
    EmptyString;
    "1. DIRECT RELEVANCE (40% weight)";
    "   - Does their work DIRECTLY relate to the user's specific product/service?";
    "   - Is there clear overlap in technology, mission, or market?";
    "   - Would they immediately understand the value proposition?";
    EmptyString;
    "2. DECISION-MAKING POWER (30% weight)";
    "   - Can they influence purchasing decisions?";
    "   - Do they control budget or procurement?";
    "   - Are they a key stakeholder in relevant programs?";
    EmptyString;
    "3. ACTIONABLE OPPORTUNITY (20% weight)";
    "   - Is there a concrete business outcome possible (sale, partnership, introduction)?";
    "   - Can this conversation lead to a specific next step?";
    "   - Is the timing right for engagement?";
    EmptyString;
    "4. MUTUAL BENEFIT (10% weight)";
    "   - Is there value for both parties?";
    "   - Does the user have something they need?";
    EmptyString;
    "SCORING RULES (be conservative):";
    "- 9-10: EXCEPTIONAL - Direct decision-maker with immediate need for user's offering. Clear path to business outcome.";
    "- 7-8: STRONG - Highly relevant expertise and influence. Likely to lead to concrete opportunity.";
    "- 5-6: MODERATE - Some relevance but indirect. May be useful for information/networking only.";
    "- 3-4: WEAK - Tangential connection. Low probability of business value.";
    "- 0-2: POOR - No meaningful connection. Not worth the conversation time.";
    EmptyString;
    "BE STRICT: Only give 9-10 if there's EXCEPTIONAL alignment. Most matches should be 5-7.";
    EmptyString;
    "Return ONLY a JSON object:" ].

Definition answer_format : string :=
  "{" +:+ nl
  +:+ "  " +:+ Str.quoted "score" +:+ ": <number 0-10>," +:+ nl
  +:+ "  " +:+ Str.quoted "reasoning" +:+ ": "
  +:+ Str.quoted "<2-3 sentences explaining the score based on criteria above>"
  +:+ nl +:+ "}".

Section Build.

Context {python : Python}.

(** The f-string of [score_speaker], given the values of its five
    expressions. *)
Definition text (user_bio : string) (name title organization bio : json)
  : string :=
  unlines intro
  +:+ user_bio +:+ nl +:+ nl
  +:+ "SPEAKER:" +:+ nl
  +:+ "Name: " +:+ py_str name +:+ nl
  +:+ "Title: " +:+ py_str title +:+ nl
  +:+ "Organization: " +:+ py_str organization +:+ nl
  +:+ "Bio: " +:+ py_str bio
  +:+ nl +:+ nl
  +:+ unlines rubric
  +:+ answer_format.

(** The assignment to [prompt]: the expressions are evaluated from left
    to right.  [speaker.get] raises on an entry that is not a dict, and
    [[:800]] raises on a biography that cannot be sliced.  The biography
    is cut here, and only here. *)
Definition build (user_bio : string) (speaker : Speaker.t) : result string :=
  name ← py_get speaker "name" (JStr "N/A");
  title ← py_get speaker "title" (JStr "N/A");
  organization ← py_get speaker "organization" (JStr "N/A");
  bio ← py_get speaker "bio" (JStr "N/A");
  bio ← py_slice_to 800 bio;
  Ok (text user_bio name title organization bio).

End Build.

End Prompt.

Section Scorer.

Context {python : Python}.

(** [json.loads], the standard library's strict JSON parser. *)
Variable json_loads : string → result json.

(** The prompt is built before the [try]: an exception of that step leaves
    the coroutine.  The two [print] calls write to standard output only
    and are left out. *)
Definition score_speaker (user_bio : string) (speaker : Speaker.t)
  : coro Scored.t :=
  prompt ← lift (Prompt.build user_bio speaker);
  try_except
    (response ← generate_text prompt None;
     result ← lift (json_loads response);
     name ← lift (py_get speaker "name" JNull);
     title ← lift (py_get speaker "title" JNull);
     organization ← lift (py_get speaker "organization" JNull);
     bio ← lift (py_get speaker "bio" JNull);
     score ← lift (py_get result "score" (JInt 0));
     reasoning ← lift (py_get result "reasoning" (JStr EmptyString));
     Return {| Scored.name := name;
               Scored.title := title;
               Scored.organization := organization;
               Scored.bio := bio;
               Scored.score := score;
               Scored.reasoning := reasoning |})
    (λ e,
     name ← lift (py_get speaker "name" JNull);
     title ← lift (py_get speaker "title" JNull);
     organization ← lift (py_get speaker "organization" JNull);
     bio ← lift (py_get speaker "bio" JNull);
     Return {| Scored.name := name;
               Scored.title := title;
               Scored.organization := organization;
               Scored.bio := bio;
               Scored.score := JInt 0;
               Scored.reasoning := JStr ("Error: " +:+ exn_str e) |}).

End Scorer.

(** ** The event loop: awaiting one coroutine, and [asyncio.gather]

    The state threaded through a run is the list of requests sent to the
    provider so far.  The provider is a function of the ordinal of the call
    and of the request, so that two calls with equal prompts may be answered
    differently. *)

Definition provider := nat → request → reply.

Definition log := list request.

(** What awaiting something comes to: a value, an exception, or no
    resumption at all (a call that never completes). *)
Inductive outcome (A : Type) : Type :=
  | Returned (a : A)
  | Raised (e : exn)
  | Hung.
Arguments Returned {A} a.
Arguments Raised {A} e.
Arguments Hung {A}.

(** A task inside [gather]. *)
Inductive task (A : Type) : Type :=
  | Done (a : A)
  | Failed (e : exn)
  | Waiting (ticket : nat) (req : request) (k : reply → coro A).
Arguments Done {A} a.
Arguments Failed {A} e.
Arguments Waiting {A} ticket req k.

Section EventLoop.

Variable chat_create : provider.

(** [await m] with nothing else running. *)
Fixpoint run {A} (m : coro A) (lg : log) : result A * log :=
  match m with
  | Return a => (Ok a, lg)
  | Raise e => (Err e, lg)
  | Await req k => run (k (chat_create (length lg) req)) (lg ++ [req])
  end.

(** Run a coroutine up to its next [await]; the request is sent there. *)
Definition advance {A} (m : coro A) (lg : log) : task A * log :=
  match m with
  | Return a => (Done a, lg)
  | Raise e => (Failed e, lg)
  | Await req k => (Waiting (length lg) req k, lg ++ [req])
  end.

(** The tasks start in the order of the argument list. *)
Fixpoint start_all {A} (ms : list (coro A)) (lg : log) : list (task A) * log :=
  match ms with
  | [] => ([], lg)
  | m :: ms' =>
      let '(t, lg1) := advance m lg in
      let '(ts, lg2) := start_all ms' lg1 in
      (t :: ts, lg2)
  end.

(** The pending call of task [i] completes and the task resumes. *)
Definition complete {A} (i : nat) (ts : list (task A)) (lg : log)
  : list (task A) * log :=
  match ts !! i with
  | Some (Waiting n req k) =>
      let '(t, lg') := advance (k (chat_create n req)) lg in
      (<[i := t]> ts, lg')
  | _ => (ts, lg)
  end.

Fixpoint first_failure {A} (ts : list (task A)) : option exn :=
  match ts with
  | [] => None
  | Failed e :: _ => Some e
  | _ :: ts' => first_failure ts'
  end.

(** The results in the order of the tasks, once every task is done. *)
Fixpoint results {A} (ts : list (task A)) : option (list A) :=
  match ts with
  | [] => Some []
  | Done a :: ts' => cons a <$> results ts'
  | _ :: _ => None
  end.

(** [sched] lists, in the order of completion, the indices of the tasks
    whose pending call completes.  An exception of a task is propagated at
    once; the join otherwise waits for every task. *)
Fixpoint gather_loop {A} (sched : list nat) (ts : list (task A)) (lg : log)
  : outcome (list A) * log :=
  match first_failure ts with
  | Some e => (Raised e, lg)
  | None =>
      match sched with
      | [] =>
          match results ts with
          | Some rs => (Returned rs, lg)
          | None => (Hung, lg)
          end
      | i :: sched' =>
          let '(ts', lg') := complete i ts lg in
          gather_loop sched' ts' lg'
      end
  end.

(** [await asyncio.gather( *ms )]: every coroutine is started, in order,
    before the join sees an outcome (the loop runs the first step of each
    task before any callback of the join), so a coroutine that raises when
    started does not keep the later ones from sending their request. *)
Definition gather {A} (ms : list (coro A)) (sched : list nat) (lg : log)
  : outcome (list A) * log :=
  let '(ts, lg1) := start_all ms lg in
  gather_loop sched ts lg1.

End EventLoop.

(** ** [list.sort(key=..., reverse=...)]

    A stable sort that compares with [<] only; with [reverse] the list is
    reversed, sorted and reversed again, which keeps equal keys in their
    original order. *)

Section Sort.

Context {A : Type} (lt : A → A → bool).

Fixpoint insert_sorted (x : A) (l : list A) : list A :=
  match l with
  | [] => [x]
  | y :: l' => if lt y x then y :: insert_sorted x l' else x :: l
  end.

Definition stable_sort (l : list A) : list A := foldr insert_sorted [] l.

Definition list_sort (reverse : bool) (l : list A) : list A :=
  if reverse then rev (stable_sort (rev l)) else stable_sort l.

(** [x] may stand before [y] in ascending order. *)
Definition asc (x y : A) : Prop := lt y x = false.
(** [x] may stand before [y] in descending order. *)
Definition desc (x y : A) : Prop := lt x y = false.

End Sort.

(** ** Filter and rank (the second half of [recommend_speakers]) *)

(** [u < v] between two sort keys.  Every key that reaches the sort has
    passed [>= threshold] against a float, hence is a number (lemma
    [kept_is_number]); numbers compare by value. *)
Definition key_lt (u v : json) : bool :=
  match as_number u, as_number v with
  | Some x, Some y => float_lt x y
  | _, _ => false
  end.

Section Rank.

Context {A : Type} (score_of : A → json).

(** [[s for s in scored if s['score'] >= threshold]] *)
Fixpoint keep_above (threshold : pyfloat) (scored : list A) : result (list A) :=
  match scored with
  | [] => Ok []
  | s :: scored' =>
      keep ← py_ge (score_of s) threshold;
      rest ← keep_above threshold scored';
      Ok (if (keep : bool) then s :: rest else rest)
  end.

(** [matches.sort(key=lambda x: x['score'], reverse=True)] *)
Definition sort_by_score (matches : list A) : list A :=
  list_sort (λ a b, key_lt (score_of a) (score_of b)) true matches.

Definition rank (threshold : pyfloat) (scored : list A) : result (list A) :=
  matches ← keep_above threshold scored;
  Ok (sort_by_score matches).

(** The score is a number ([int], [bool] or [float]). *)
Definition number (s : A) : Prop := is_Some (as_number (score_of s)).

(** The score is a number other than NaN. *)
Definition comparable (s : A) : Prop :=
  ∃ x, as_number (score_of s) = Some x ∧ x ≠ FNaN.

(** [s['score'] >= threshold] holds. *)
Definition passes (threshold : pyfloat) (s : A) : bool :=
  match as_number (score_of s) with
  | Some x => float_ge x threshold
  | None => false
  end.

Definition score_lt (a b : A) : bool := key_lt (score_of a) (score_of b).

(** [a['score'] >= b['score']] holds. *)
Definition score_ge (a b : A) : bool :=
  match as_number (score_of a), as_number (score_of b) with
  | Some x, Some y => float_ge x y
  | _, _ => false
  end.

(** The two scores are equal numbers. *)
Definition same_score (a b : A) : bool := score_ge a b && score_ge b a.

End Rank.

(** ** [SpeakerMatcher.recommend_speakers] *)

Section Matcher.

Context {python : Python}.
Variable json_loads : string → result json.
Variable chat_create : provider.

Definition recommend_speakers (user_bio : string) (speakers : list Speaker.t)
    (threshold : pyfloat) (sched : list nat) (lg : log)
  : outcome (list Scored.t) * log :=
  let tasks := map (score_speaker json_loads user_bio) speakers in
  match gather chat_create tasks sched lg with
  | (Returned scored_speakers, lg') =>
      match rank Scored.score threshold scored_speakers with
      | Ok matches => (Returned matches, lg')
      | Err e => (Raised e, lg')
      end
  | (Raised e, lg') => (Raised e, lg')
  | (Hung, lg') => (Hung, lg')
  end.

End Matcher.

(** ** [AnthropicClient.extract_structured_data]

    The prompt embeds [json.dumps(schema, indent=2)], taken here as the
    text [schema_str]. *)

Module Anthropic.

Definition fence : string := "```".
Definition json_fence : string := "```json".

(** [pieces[i]] *)
Definition item (i : nat) (pieces : list string) : result string :=
  match pieces !! i with
  | Some p => Ok p
  | None => Err (mk_exn IndexError "list index out of range")
  end.

(** The text handed to [json.loads]: the reply, or the inside of its
    first fenced block. *)
Definition unfence (text : string) : result string :=
  if Str.contains json_fence text then
    after ← item 1 (Str.split json_fence text);
    inside ← item 0 (Str.split fence after);
    Ok (Str.strip inside)
  else if Str.contains fence text then
    after ← item 1 (Str.split fence text);
    inside ← item 0 (Str.split fence after);
    Ok (Str.strip inside)
  else Ok text.

Definition prompt (content schema_str : string) (instructions : option string)
  : string :=
  let nl := Prompt.nl in
  "Extract the following information from the provided content." +:+ nl
  +:+ "Return ONLY a valid JSON object matching this schema:" +:+ nl +:+ nl
  +:+ schema_str +:+ nl +:+ nl
  +:+ match instructions with
      | Some i => if truthy i then "Additional instructions: " +:+ i
                  else EmptyString
      | None => EmptyString
      end +:+ nl +:+ nl
  +:+ "If a field is not found, use null for the value." +:+ nl +:+ nl
  +:+ "Content:" +:+ nl
  +:+ Str.slice_to 100000 content +:+ "  # Claude has large context window"
  +:+ nl.

Section Extract.

Variable json_loads : string → result json.

(** [response.content[0].text] is the content of the reply; a reply
    without text makes the [in] test raise. *)
Definition extract_structured_data (content schema_str : string)
    (instructions : option string) : coro json :=
  try_except
    (response ← await_create
                  [("user", prompt content schema_str instructions)];
     match response with
     | Some text =>
         inner ← lift (unfence text);
         lift (json_loads inner)
     | None =>
         Raise (mk_exn TypeError
                  "argument of type 'NoneType' is not iterable")
     end)
    (λ e, Raise (mk_exn Exception
                   ("Error extracting structured data: " +:+ exn_str e))).

End Extract.

(** *** The other methods of the client *)

(** [response.content[0].text.strip()] *)
Definition stripped_text (response : option string) : coro string :=
  match response with
  | Some text => Return (Str.strip text)
  | None =>
      Raise (mk_exn AttributeError
               "'NoneType' object has no attribute 'strip'")
  end.

Definition style_instructions : gmap string string :=
  <["concise" := "Create a brief, concise summary."]>
    (<["detailed" :=
         "Create a comprehensive summary covering all key points."]>
       {["bullet_points" :=
           "Create a bullet-point summary of the main points."]}).

(** [style_instructions.get(style, style_instructions['concise'])] *)
Definition style_instruction (style : string) : string :=
  default (default EmptyString (style_instructions !! "concise"))
          (style_instructions !! style).

Definition summarize_prompt (content : string) (max_length : Z)
    (style : string) : string :=
  let nl := Prompt.nl in
  style_instruction style +:+ nl
  +:+ "Maximum length: " +:+ pretty max_length +:+ " words." +:+ nl +:+ nl
  +:+ "Content:" +:+ nl
  +:+ Str.slice_to 100000 content +:+ nl.

Definition summarize (content : string) (max_length : Z) (style : string)
  : coro string :=
  try_except
    (response ← await_create
                  [("user", summarize_prompt content max_length style)];
     stripped_text response)
    (λ e, Raise (mk_exn Exception
                   ("Error summarizing content: " +:+ exn_str e))).

Definition classify_prompt (content : string) (categories : list string)
    (multi_label : bool) : string :=
  let nl := Prompt.nl in
  "Classify the following content into "
  +:+ (if multi_label then "one or more of" else "one of")
  +:+ " these categories:" +:+ nl
  +:+ Str.join ", " categories +:+ nl +:+ nl
  +:+ "Return a JSON object with:" +:+ nl
  +:+ "- " +:+ Str.quoted "categories" +:+ ": "
  +:+ (if multi_label then " list of matching categories"
       else "the single best matching category") +:+ nl
  +:+ "- " +:+ Str.quoted "confidence" +:+ ": confidence score (0-1)" +:+ nl
  +:+ "- " +:+ Str.quoted "reasoning" +:+ ": brief explanation" +:+ nl +:+ nl
  +:+ "Content:" +:+ nl
  +:+ Str.slice_to 50000 content +:+ nl.

(** Truth value of a list. *)
Definition nonempty {A} (l : list A) : bool :=
  match l with
  | [] => false
  | _ :: _ => true
  end.

Definition entity_instruction (entity_types : option (list string)) : string :=
  match entity_types with
  | Some types =>
      if nonempty types
      then "Extract only these entity types: " +:+ Str.join ", " types
      else "Extract all named entities (people, organizations, locations, dates, products, etc.)"
  | None =>
      "Extract all named entities (people, organizations, locations, dates, products, etc.)"
  end.

Definition entities_prompt (content : string)
    (entity_types : option (list string)) : string :=
  let nl := Prompt.nl in
  entity_instruction entity_types +:+ nl +:+ nl
  +:+ "Return a JSON object where keys are entity types and values are lists of entities found."
  +:+ nl +:+ nl
  +:+ "Content:" +:+ nl
  +:+ Str.slice_to 100000 content +:+ nl.

Definition question_prompt (content question : string) : string :=
  let nl := Prompt.nl in
  "Based on the following content, answer this question: " +:+ question
  +:+ nl +:+ nl
  +:+ "If the answer cannot be found in the content, say "
  +:+ Str.quoted "I cannot find this information in the provided content."
  +:+ nl +:+ nl
  +:+ "Content:" +:+ nl
  +:+ Str.slice_to 100000 content +:+ nl.

Definition answer_question (content question : string) : coro string :=
  try_except
    (response ← await_create [("user", question_prompt content question)];
     stripped_text response)
    (λ e, Raise (mk_exn Exception
                   ("Error answering question: " +:+ exn_str e))).

Definition html_prompt (html_content : string) : string :=
  let nl := Prompt.nl in
  "Extract the main content from this HTML, removing navigation, ads, footers, and other boilerplate."
  +:+ nl
  +:+ "Return only the core article/page content in clean, readable text format."
  +:+ nl +:+ nl
  +:+ "HTML:" +:+ nl
  +:+ Str.slice_to 100000 html_content +:+ nl.

Definition clean_html_content (html_content : string) : coro string :=
  try_except
    (response ← await_create [("user", html_prompt html_content)];
     stripped_text response)
    (λ e, Raise (mk_exn Exception
                   ("Error cleaning HTML content: " +:+ exn_str e))).

Section Parsed.

Variable json_loads : string → result json.

(** The lines from [result = response.content[0].text] to
    [return json.loads(result)], as [classify] and [extract_entities]
    repeat them. *)
Definition parse_reply (response : option string) : coro json :=
  match response with
  | Some text =>
      inner ← lift (unfence text);
      lift (json_loads inner)
  | None =>
      Raise (mk_exn TypeError "argument of type 'NoneType' is not iterable")
  end.

Definition classify (content : string) (categories : list string)
    (multi_label : bool) : coro json :=
  try_except
    (response ← await_create
                  [("user", classify_prompt content categories multi_label)];
     parse_reply response)
    (λ e, Raise (mk_exn Exception
                   ("Error classifying content: " +:+ exn_str e))).

Definition extract_entities (content : string)
    (entity_types : option (list string)) : coro json :=
  try_except
    (response ← await_create
                  [("user", entities_prompt content entity_types)];
     parse_reply response)
    (λ e, Raise (mk_exn Exception
                   ("Error extracting entities: " +:+ exn_str e))).

End Parsed.

End Anthropic.

(** ** [PromptTemplates] and the JSON methods of [OpenAIClient] *)

Module Templates.

(** [PromptTemplates.structured_extraction], with
    [json.dumps(schema, indent=2)] taken as the text [schema_str]. *)
Definition structured_extraction (schema_str content : string)
    (instructions : option string) : string :=
  let nl := Prompt.nl in
  "Extract the following information from the provided content." +:+ nl
  +:+ "Return ONLY a valid JSON object matching this schema:" +:+ nl +:+ nl
  +:+ schema_str +:+ nl +:+ nl
  +:+ match instructions with
      | Some i => if truthy i then "Additional instructions: " +:+ i
                  else EmptyString
      | None => EmptyString
      end +:+ nl +:+ nl
  +:+ "If a field is not found, use null for the value." +:+ nl +:+ nl
  +:+ "Content:" +:+ nl
  +:+ content.

(** [SystemPrompts.DATA_EXTRACTION] *)
Definition DATA_EXTRACTION : string :=
  "You are a data extraction assistant. Always respond with valid JSON.".

End Templates.

Module OpenAI.

Section Extract.

Variable json_loads : string → result json.

(** [json.loads(result)] for the content of the reply; [json.loads]
    refuses [None]. *)
Definition loads_content (content : option string) : coro json :=
  match content with
  | Some text => lift (json_loads text)
  | None =>
      Raise (mk_exn TypeError
               "the JSON object must be str, bytes or bytearray, not NoneType")
  end.

Definition extract_structured_data (content schema_str : string)
    (instructions : option string) : coro json :=
  let limited_content := Str.slice_to 8000 content in
  let prompt :=
    Templates.structured_extraction schema_str limited_content instructions in
  try_except
    (response ← await_create
                  [("system", Templates.DATA_EXTRACTION); ("user", prompt)];
     loads_content response)
    (λ e, Raise (mk_exn Exception
                   ("Error extracting structured data: " +:+ exn_str e))).

End Extract.

End OpenAI.

(** ** [backend.py]: the [/match] endpoint *)

Record MatchRequest := {
  user_bio : string;
  threshold : pyfloat
}.

(** The response model of one match, after validation. *)
Module SpeakerMatch.
Record t := make {
  name : string;
  title : string;
  organization : string;
  bio : string;
  score : pyfloat;
  reasoning : string
}.
End SpeakerMatch.

Record MatchResponse := {
  matches : list SpeakerMatch.t;
  total_speakers : nat;
  matches_found : nat
}.

Section Backend.

Context {python : Python}.
Variable json_loads : string → result json.
Variable chat_create : provider.

(** The [OPENAI_API_KEY] environment variable. *)
Variable api_key : option string.

(** Validation of one scored dict against [SpeakerMatch] by the
    [BaseModel] constructor. *)
Variable model_validate : Scored.t → result SpeakerMatch.t.

(** [SpeakerMatcher()]: [OpenAIClient.__init__] needs a key. *)
Definition SpeakerMatcher_init : result unit :=
  match api_key with
  | Some key =>
      if truthy key then Ok ()
      else Err (mk_exn ValueError "OpenAI API key not provided")
  | None => Err (mk_exn ValueError "OpenAI API key not provided")
  end.

Fixpoint validate_all (ms : list Scored.t) : result (list SpeakerMatch.t) :=
  match ms with
  | [] => Ok []
  | m :: ms' =>
      v ← model_validate m;
      vs ← validate_all ms';
      Ok (v :: vs)
  end.

Definition error_matching (e : exn) : exn :=
  mk_exn (HTTPException 500) ("Error matching speakers: " +:+ exn_str e).

(** [speakers_data] is the module-level catalog loaded at start-up. *)
Definition match_speakers (speakers_data : list Speaker.t)
    (request : MatchRequest) (sched : list nat) (lg : log)
  : outcome MatchResponse * log :=
  match speakers_data with
  | [] => (Raised (mk_exn (HTTPException 500) "Speaker data not loaded"), lg)
  | _ :: _ =>
      if negb (truthy (user_bio request))
         || (String.length (Str.strip (user_bio request)) <? 10)
      then (Raised (mk_exn (HTTPException 400)
                      "User bio must be at least 10 characters"), lg)
      else
        match SpeakerMatcher_init with
        | Err e => (Raised (error_matching e), lg)
        | Ok _ =>
            match recommend_speakers json_loads chat_create
                    (user_bio request) speakers_data (threshold request)
                    sched lg with
            | (Returned matches, lg') =>
                match validate_all matches with
                | Ok validated =>
                    (Returned {| matches := validated;
                                 total_speakers := length speakers_data;
                                 matches_found := length matches |}, lg')
                | Err e => (Raised (error_matching e), lg')
                end
            | (Raised e, lg') => (Raised (error_matching e), lg')
            | (Hung, lg') => (Hung, lg')
            end
        end
  end.

End Backend.

(** *** Start-up and the two read-only endpoints *)

Module Root.
Record t := make {
  message : string;
  speakers_loaded : nat
}.
End Root.

Module Listing.
Record t := make {
  speakers : list Speaker.t;
  count : nat
}.
End Listing.

(** [lifespan]: what [speakers_data] holds once the application has
    started, [load] being what [load_speakers_from_file] did (it returned
    the catalog or raised); a failure is printed and otherwise ignored.
    The catalog file is taken to hold a JSON array; its entries are not
    constrained. *)
Definition lifespan (load : result (list Speaker.t))
    (speakers_data : list Speaker.t) : list Speaker.t :=
  match load with
  | Ok loaded => loaded
  | Err _ => speakers_data
  end.

(** The value of the module variable before [lifespan] runs. *)
Definition initial_speakers_data : list Speaker.t := [].

(** [GET /] *)
Definition root (speakers_data : list Speaker.t) : Root.t :=
  {| Root.message := "Speaker Recommendation API";
     Root.speakers_loaded := length speakers_data |}.

(** [GET /speakers] *)
Definition get_speakers (speakers_data : list Speaker.t) : Listing.t :=
  {| Listing.speakers := speakers_data;
     Listing.count := length speakers_data |}.

(** ** Closed forms used in the statements *)

(** The prompt of [speaker] can be built: the entry is a dict, and its
    biography, when the key is there, is a text or a list. *)
Definition promptable (speaker : Speaker.t) : bool :=
  match speaker with
  | JDict d =>
      match d !! "bio" with
      | None | Some (JStr _) | Some (JList _) => true
      | Some _ => false
      end
  | _ => false
  end.

Definition all_promptable (speakers : list Speaker.t) : Prop :=
  Forall (λ speaker, promptable speaker = true) speakers.

(** The prompt built for a speaker (the empty text where none can be
    built, in which case no request is sent). *)
Definition prompt_of `{!Python} (user_bio : string) (speaker : Speaker.t)
  : string :=
  match Prompt.build user_bio speaker with
  | Ok prompt => prompt
  | Err _ => EmptyString
  end.

(** The request sent for one speaker whose prompt can be built. *)
Definition scoring_request `{!Python} (user_bio : string)
    (speaker : Speaker.t) : request :=
  [("user", prompt_of user_bio speaker)].

(** The requests sent for a catalog: one for each speaker whose prompt can
    be built, in catalog order. *)
Definition scoring_requests `{!Python} (user_bio : string)
    (speakers : list Speaker.t) : list request :=
  map (scoring_request user_bio) (List.filter promptable speakers).

(** The exception of the first speaker whose prompt cannot be built. *)
Fixpoint prompt_failure `{!Python} (user_bio : string)
    (speakers : list Speaker.t) : option exn :=
  match speakers with
  | [] => None
  | speaker :: speakers' =>
      match Prompt.build user_bio speaker with
      | Ok _ => prompt_failure user_bio speakers'
      | Err e => Some e
      end
  end.

(** The match returned from the [except] branch. *)
Definition fallback (speaker : Speaker.t) (e : exn) : Scored.t :=
  {| Scored.name := Speaker.field "name" speaker;
     Scored.title := Speaker.field "title" speaker;
     Scored.organization := Speaker.field "organization" speaker;
     Scored.bio := Speaker.field "bio" speaker;
     Scored.score := JInt 0;
     Scored.reasoning := JStr ("Error: " +:+ exn_str e) |}.

(** The match returned from the [try] branch for a parsed object [d]. *)
Definition scored_from (speaker : Speaker.t) (d : gmap string json) : Scored.t :=
  {| Scored.name := Speaker.field "name" speaker;
     Scored.title := Speaker.field "title" speaker;
     Scored.organization := Speaker.field "organization" speaker;
     Scored.bio := Speaker.field "bio" speaker;
     Scored.score := default (JInt 0) (d !! "score");
     Scored.reasoning := default (JStr EmptyString) (d !! "reasoning") |}.

Definition generation_error (reason : string) : exn :=
  mk_exn Exception ("Error generating text: " +:+ reason).

(** What [generate_text] makes of an answer of the provider. *)
Definition generated (r : reply) : result string :=
  match r with
  | Err e => Err (generation_error (exn_str e))
  | Ok None => Err (generation_error "'NoneType' object has no attribute 'strip'")
  | Ok (Some text) => Ok (Str.strip text)
  end.

Section ItemResult.

Variable json_loads : string → result json.

(** The steps inside the [try] of [score_speaker], for one answer. *)
Definition parsed_reply (r : reply) : result (gmap string json) :=
  response ← generated r;
  v ← json_loads response;
  match v with
  | JDict d => Ok d
  | _ => _ ← py_get v "score" (JInt 0); Ok ∅
  end.

(** The match [score_speaker] returns for one answer of the provider. *)
Definition item_result (speaker : Speaker.t) (r : reply) : Scored.t :=
  match parsed_reply r with
  | Ok d => scored_from speaker d
  | Err e => fallback speaker e
  end.

(** A step inside the [try] fails on the answer [r], raising [e]: the call
    raised, the message had no text, the text is not JSON, or the JSON
    value is not an object. *)
Inductive step_fails : reply → exn → Prop :=
  | provider_raises e :
      step_fails (Err e) (generation_error (exn_str e))
  | reply_without_text :
      step_fails (Ok None)
        (generation_error "'NoneType' object has no attribute 'strip'")
  | reply_unparsable text e :
      json_loads (Str.strip text) = Err e →
      step_fails (Ok (Some text)) e
  | reply_not_object text v e :
      json_loads (Str.strip text) = Ok v →
      py_get v "score" (JInt 0) = Err e →
      step_fails (Ok (Some text)) e.

End ItemResult.

(** The scored batch of a catalog whose prompts can all be built: one
    match per speaker, in catalog order, the call for the [i]-th speaker
    being call number [n + i]. *)
Fixpoint scored_batch `{!Python} (json_loads : string → result json)
    (chat_create : provider) (user_bio : string) (n : nat)
    (speakers : list Speaker.t) : list Scored.t :=
  match speakers with
  | [] => []
  | speaker :: speakers' =>
      item_result json_loads speaker
        (chat_create n (scoring_request user_bio speaker))
      :: scored_batch json_loads chat_create user_bio (S n) speakers'
  end.

(** ** The three tiers of the JSON extraction, by position *)

(** The part of [s] before the first occurrence of [sep]; all of [s] when
    there is none. *)
Definition text_before (sep s : string) : string :=
  match Str.find sep s with
  | Some i => Str.slice_to i s
  | None => s
  end.

(** The part of [s] after the first occurrence of [sep]. *)
Definition text_after (sep s : string) : option string :=
  match Str.find sep s with
  | Some i => Some (Str.slice_from (i + String.length sep) s)
  | None => None
  end.

(** The three tiers as the parser is described: the inside of the first
    block fenced with the JSON tag (what follows the tag, cut at the next
    tagged fence and at the first fence), else the inside of the first
    fenced block, else the text as it is. *)
Definition three_tier (text : string) : string :=
  match text_after Anthropic.json_fence text with
  | Some rest =>
      Str.strip (text_before Anthropic.fence
                   (text_before Anthropic.json_fence rest))
  | None =>
      match text_after Anthropic.fence text with
      | Some rest => Str.strip (text_before Anthropic.fence rest)
      | None => text
      end
  end.

(** A chained exception of [extract_structured_data]. *)
Definition extraction_error (e : exn) : exn :=
  mk_exn Exception ("Error extracting structured data: " +:+ exn_str e).

(** ** [recommend_speakers] on a store of objects

    The same function with the lists and dicts it touches held in a store:
    the catalog is a list object of references to its entries; each
    scored match is a new dict; [scored_speakers] and [matches] are new
    list objects; [matches.sort] writes to the [matches] object in place.
    The scored dicts are allocated here in catalog order (in a run their
    addresses follow the order of completion; their contents do not). *)

Module Heap.

Definition loc := nat.

(** A catalog entry with the value it holds, a scored dict, a list. *)
Inductive obj :=
  | Entry (speaker : Speaker.t)
  | ScoredDict (scored : Scored.t)
  | ListOf (items : list loc).

(** A new object at an unused address. *)
Definition alloc (o : obj) (h : gmap loc obj) : loc * gmap loc obj :=
  let l := fresh (dom h) in (l, <[l := o]> h).

Fixpoint alloc_all (os : list obj) (h : gmap loc obj)
  : list loc * gmap loc obj :=
  match os with
  | [] => ([], h)
  | o :: os' =>
      let '(l, h1) := alloc o h in
      let '(ls, h2) := alloc_all os' h1 in
      (l :: ls, h2)
  end.

Definition not_a_catalog : exn :=
  mk_exn TypeError "the object is not a list of catalog entries".

Definition speaker_at (h : gmap loc obj) (l : loc) : result Speaker.t :=
  match h !! l with
  | Some (Entry speaker) => Ok speaker
  | _ => Err not_a_catalog
  end.

Fixpoint speakers_at (h : gmap loc obj) (ls : list loc)
  : result (list Speaker.t) :=
  match ls with
  | [] => Ok []
  | l :: ls' =>
      speaker ← speaker_at h l;
      rest ← speakers_at h ls';
      Ok (speaker :: rest)
  end.

(** The entries reached from the list object at [speakers]. *)
Definition catalog_at (h : gmap loc obj) (speakers : loc)
  : result (list Speaker.t) :=
  match h !! speakers with
  | Some (ListOf refs) => speakers_at h refs
  | _ => Err not_a_catalog
  end.

(** [s['score']] for the scored dict at [l]. *)
Definition score_at (h : gmap loc obj) (l : loc) : json :=
  match h !! l with
  | Some (ScoredDict scored) => Scored.score scored
  | _ => JNull
  end.

Section Matcher.

Context {python : Python}.
Variable json_loads : string → result json.
Variable chat_create : provider.

Definition recommend_speakers (user_bio : string) (speakers : loc)
    (threshold : pyfloat) (sched : list nat) (lg : log)
    (h : gmap loc obj)
  : outcome loc * log * gmap loc obj :=
  match catalog_at h speakers with
  | Err e => (Raised e, lg, h)
  | Ok records =>
      let tasks := map (score_speaker json_loads user_bio) records in
      match gather chat_create tasks sched lg with
      | (Returned scored, lg') =>
          let '(dicts, h1) := alloc_all (map ScoredDict scored) h in
          let '(_, h2) := alloc (ListOf dicts) h1 in
          match keep_above (score_at h2) threshold dicts with
          | Ok kept =>
              let '(matches, h3) := alloc (ListOf kept) h2 in
              (Returned matches, lg',
               <[matches := ListOf (sort_by_score (score_at h3) kept)]> h3)
          | Err e => (Raised e, lg', h2)
          end
      | (Raised e, lg') => (Raised e, lg', h)
      | (Hung, lg') => (Hung, lg', h)
      end
  end.

End Matcher.

(** The scored dicts a list object refers to. *)
Definition matches_at (h : gmap loc obj) (l : loc)
  : option (list Scored.t) :=
  match h !! l with
  | Some (ListOf refs) =>
      mapM (λ r, match h !! r with
                 | Some (ScoredDict scored) => Some scored
                 | _ => None
                 end) refs
  | _ => None
  end.

End Heap.

(** The store holds the scored dict [scored] at [l]. *)
Definition holds (h : gmap Heap.loc Heap.obj) (l : Heap.loc)
    (scored : Scored.t) : Prop :=
  h !! l = Some (Heap.ScoredDict scored).

(** ** A worked scenario

    Three speakers; the provider scores the first 9, fails on the second
    and scores the third 7. *)

Module Example.

(** The scenario shows no float, list or dict in a prompt. *)
#[global] Instance python : Python :=
  {| py_repr := λ v, "<" +:+ type_name v +:+ ">";
     hashable_slices := false |}.

Definition ann : Speaker.t :=
  Speaker.make "Ann Lee" "Program Manager"
    "Army Futures Command" "Leads counter-drone procurement.".

Definition bob : Speaker.t :=
  Speaker.make "Bob Ortiz" "Historian"
    "War College" "Writes on nineteenth-century logistics.".

Definition cy : Speaker.t :=
  Speaker.make "Cy Tran" "Chief Engineer"
    "Base Defense Lab" "Tests radar and jamming systems.".

Definition catalog : list Speaker.t := [ann; bob; cy].

(** An entry whose biography is [null]. *)
Definition dee : Speaker.t :=
  JDict (<["name" := JStr "Dee Voss"]> {["bio" := JNull]}).

Definition not_subscriptable : exn :=
  mk_exn TypeError "'NoneType' object is not subscriptable".

Definition query : string :=
  "I sell Counter-Unmanned Aircraft Systems for an Army Air Base".

(** A reply holding a JSON object with the given score and reasoning. *)
Definition answer (score reasoning : string) : string :=
  "{" +:+ Str.quoted "score" +:+ ": " +:+ score +:+ ", "
  +:+ Str.quoted "reasoning" +:+ ": " +:+ Str.quoted reasoning +:+ "}".

Definition object (score : json) (reasoning : string) : json :=
  JDict (<["reasoning" := JStr reasoning]> {["score" := score]}).

(** [json.loads] on the texts of this scenario; every other text used
    below does not begin a JSON value. *)
Definition json_loads (text : string) : result json :=
  if String.eqb text (answer "9" "Direct buyer.")
  then Ok (object (JInt 9) "Direct buyer.")
  else if String.eqb text (answer "7" "Relevant tester.")
  then Ok (object (JInt 7) "Relevant tester.")
  else if String.eqb text (answer (Str.quoted "high") "Direct buyer.")
  then Ok (object (JStr "high") "Direct buyer.")
  else if String.eqb text ("{" +:+ Str.quoted "verdict" +:+ ": 9}")
  then Ok (JDict {["verdict" := JInt 9]})
  else Err (mk_exn JSONDecodeError
              "Expecting value: line 1 column 1 (char 0)").

Definition connection_error : exn := mk_exn APIError "Connection error.".

(** A provider whose every reply is a JSON object without the two keys. *)
Definition vague_create : provider :=
  λ _ _, Ok (Some ("{" +:+ Str.quoted "verdict" +:+ ": 9}")).

Definition chat_create : provider :=
  λ n _, match n with
         | 0 => Ok (Some (answer "9" "Direct buyer."))
         | 1 => Err connection_error
         | _ => Ok (Some (answer "7" "Relevant tester."))
         end.

Definition scored_ann : Scored.t :=
  Scored.make (JStr "Ann Lee") (JStr "Program Manager")
    (JStr "Army Futures Command") (JStr "Leads counter-drone procurement.")
    (JInt 9) (JStr "Direct buyer.").

Definition scored_bob : Scored.t :=
  Scored.make (JStr "Bob Ortiz") (JStr "Historian")
    (JStr "War College") (JStr "Writes on nineteenth-century logistics.")
    (JInt 0) (JStr "Error: Error generating text: Connection error.").

Definition scored_cy : Scored.t :=
  Scored.make (JStr "Cy Tran") (JStr "Chief Engineer")
    (JStr "Base Defense Lab") (JStr "Tests radar and jamming systems.")
    (JInt 7) (JStr "Relevant tester.").

Definition float_of_Z (z : Z) : pyfloat := FFin (inject_Z z).

(** A provider whose every reply carries a score that is text. *)
Definition wordy_create : provider :=
  λ _ _, Ok (Some (answer (Str.quoted "high") "Direct buyer.")).

(** A provider whose every reply wraps the object in a fenced block. *)
Definition fenced_reply : string :=
  "```json" +:+ Prompt.nl +:+ answer "9" "Direct buyer." +:+ Prompt.nl
  +:+ "```".

Definition fencing_create : provider := λ _ _, Ok (Some fenced_reply).

(** Validation in the manner of the response model: the four texts
    present, a numeric score, a text as reasoning. *)
Definition model_validate (m : Scored.t) : result SpeakerMatch.t :=
  match Scored.name m, Scored.title m, Scored.organization m, Scored.bio m,
        as_number (Scored.score m), Scored.reasoning m with
  | JStr n, JStr t, JStr o, JStr b, Some x, JStr r =>
      Ok (SpeakerMatch.make n t o b x r)
  | _, _, _, _, _, _ =>
      Err (mk_exn ValidationError "validation error for SpeakerMatch")
  end.

Definition api_key : option string := Some "sk-example".

(** A store holding the catalog: the three entries at 0, 1, 2 and
    the list object at 3. *)
Definition store : gmap Heap.loc Heap.obj :=
  <[3 := Heap.ListOf [0; 1; 2]]>
    (<[2 := Heap.Entry cy]>
       (<[1 := Heap.Entry bob]> {[0 := Heap.Entry ann]})).

Definition requests : log := map (scoring_request query) catalog.

(** The response to [query] at the default threshold. *)
Definition response : MatchResponse :=
  {| matches :=
       [SpeakerMatch.make "Ann Lee" "Program Manager" "Army Futures Command"
          "Leads counter-drone procurement." (float_of_Z 9) "Direct buyer.";
        SpeakerMatch.make "Cy Tran" "Chief Engineer" "Base Defense Lab"
          "Tests radar and jamming systems." (float_of_Z 7)
          "Relevant tester."];
     total_speakers := 3;
     matches_found := 2 |}.

End Example.

(** ** What the join computes for coroutines that await once *)

Section GatherSpec.

Variable chat_create : provider.
Context {A : Type}.

(** A coroutine that awaits one call for [req] and returns [f] of the
    answer. *)
Definition single (m : coro A) (spec : request * (reply → A)) : Prop :=
  ∃ k, m = Await spec.1 k ∧ ∀ r, k r = Return (spec.2 r).

(** The values such coroutines return when their calls are numbered from
    [n] on. *)
Fixpoint answers (n : nat) (specs : list (request * (reply → A))) : list A :=
  match specs with
  | [] => []
  | spec :: specs' => spec.2 (chat_create n spec.1) :: answers (S n) specs'
  end.

(** State of one task of the join: still waiting for call [n], or done
    with the value that call determines. *)
Definition tracks (n : nat) (spec : request * (reply → A)) (t : task A) : Prop :=
  (∃ k, t = Waiting n spec.1 k ∧ ∀ r, k r = Return (spec.2 r))
  ∨ t = Done (spec.2 (chat_create n spec.1)).

Fixpoint all_track (n : nat) (specs : list (request * (reply → A)))
    (ts : list (task A)) : Prop :=
  match specs, ts with
  | [], [] => True
  | spec :: specs', t :: ts' => tracks n spec t ∧ all_track (S n) specs' ts'
  | _, _ => False
  end.

End GatherSpec.

(** The request and the result function of each scoring task. *)
Definition scoring_specs `{!Python} (json_loads : string → result json)
    (user_bio : string) (speakers : list Speaker.t)
  : list (request * (reply → Scored.t)) :=
  map (λ speaker, (scoring_request user_bio speaker,
                   item_result json_loads speaker)) speakers.

(** ** Rankings with catalog positions *)

(** The provider [chat_create], except that call number [n] raises [e]. *)
Definition fail_at (chat_create : provider) (n : nat) (e : exn) : provider :=
  λ m req, if m =? n then Err e else chat_create m req.

Fixpoint indexed_from {A} (n : nat) (l : list A) : list (nat * A) :=
  match l with
  | [] => []
  | x :: l' => (n, x) :: indexed_from (S n) l'
  end.

(** Each entry with its position in the catalog. *)
Definition indexed {A} (l : list A) : list (nat * A) := indexed_from 0 l.

(** The filter-and-sort of [recommend_speakers], run on the scored batch
    with positions attached. *)
Definition ranking (threshold : pyfloat) (scored : list Scored.t)
  : result (list (nat * Scored.t)) :=
  rank (λ p, Scored.score p.2) threshold (indexed scored).

(** The same on the bare scores. *)
Definition ranking_of_scores (threshold : pyfloat) (scores : list json)
  : result (list (nat * json)) :=
  rank snd threshold (indexed scores).

(** A ranking with the entry of position [k] left out. *)
Definition without {A} (k : nat) (ranked : list (nat * A)) : list (nat * A) :=
  List.filter (λ p, negb (p.1 =? k)) ranked.

Definition result_map {A B} (f : A → B) (r : result A) : result B :=
  match r with
  | Ok a => Ok (f a)
  | Err e => Err e
  end.

(** ** Closed forms for the other client methods *)

Definition chained (label : string) (e : exn) : exn :=
  mk_exn Exception (label +:+ exn_str e).

(** What a JSON-returning method of [AnthropicClient] makes of an answer of
    the provider; [label] starts the text of the chained exception. *)
Definition parsed_answer (json_loads : string → result json) (label : string)
    (r : reply) : result json :=
  match r with
  | Err e => Err (chained label e)
  | Ok None =>
      Err (chained label
             (mk_exn TypeError "argument of type 'NoneType' is not iterable"))
  | Ok (Some text) =>
      match json_loads (three_tier text) with
      | Ok v => Ok v
      | Err e => Err (chained label e)
      end
  end.

(** The messages [generate_text] sends. *)
Definition generation_messages (prompt : string)
    (system_prompt : option string) : request :=
  match system_prompt with
  | Some sp => if truthy sp then [("system", sp)] else []
  | None => []
  end ++ [("user", prompt)].

(** The length of a field of a speaker as the prompt shows it. *)
Definition shown_length `{!Python} (key : string) (d : gmap string json)
  : nat :=
  String.length (py_str (default (JStr "N/A") (d !! key))).

(** The request a coroutine sends when it is started, if it sends one. *)
Definition first_request {A} (m : coro A) : option request :=
  match m with
  | Await req _ => Some req
  | _ => None
  end.

(** The exception of the first coroutine that raises when it is started. *)
Fixpoint first_raise {A} (ms : list (coro A)) : option exn :=
  match ms with
  | [] => None
  | Raise e :: _ => Some e
  | _ :: ms' => first_raise ms'
  end.

(** Case analysis on every float in sight. *)
Ltac float_cases :=
  repeat match goal with
         | x : pyfloat |- _ => destruct x as [|[|]|?]
         end;
  simpl in *; try congruence; try tauto.

(** * Properties *)

(** ** The scenario, evaluated *)

Example split_fence :
  Str.split "```" "a```b```c" = ["a"; "b"; "c"]
  ∧ Str.split "ab" "xabYab" = ["x"; "Y"; EmptyString]
  ∧ Str.split "aa" "aaaaa" = [EmptyString; EmptyString; "a"]
  ∧ Str.find "```" "a````" = Some 1
  ∧ Str.strip "  x y  " = "x y".
Proof. repeat split; reflexivity. Qed.

Example unfence_tagged :
  Anthropic.unfence Example.fenced_reply
  = Ok (Example.answer "9" "Direct buyer.").
Proof. vm_compute. reflexivity. Qed.

Example unfence_untagged :
  Anthropic.unfence ("Here it is: ```{}``` as asked") = Ok "{}"
  ∧ Anthropic.unfence "no fence at all" = Ok "no fence at all".
Proof. split; vm_compute; reflexivity. Qed.

(** Threshold 6: the failed item is scored 0 and left out. *)
Example scenario_threshold_6 :
  recommend_speakers Example.json_loads Example.chat_create Example.query
    Example.catalog (Example.float_of_Z 6) [2; 0; 1] []
  = (Returned [Example.scored_ann; Example.scored_cy], Example.requests).
Proof. vm_compute. reflexivity. Qed.

(** Threshold 0: the failed item is kept, last. *)
Example scenario_threshold_0 :
  recommend_speakers Example.json_loads Example.chat_create Example.query
    Example.catalog (Example.float_of_Z 0) [1; 2; 0] []
  = (Returned [Example.scored_ann; Example.scored_cy; Example.scored_bob],
     Example.requests).
Proof. vm_compute. reflexivity. Qed.

(** A call that never completes stalls the whole batch. *)
Example scenario_stalled :
  recommend_speakers Example.json_loads Example.chat_create Example.query
    Example.catalog (Example.float_of_Z 0) [1; 2] []
  = (Hung, Example.requests).
Proof. vm_compute. reflexivity. Qed.

(** An empty catalog is ranked to an empty list without any request. *)
Example scenario_no_speakers :
  recommend_speakers Example.json_loads Example.chat_create Example.query
    [] (Example.float_of_Z 6) [] []
  = (Returned [], []).
Proof. reflexivity. Qed.

(** On the store, the returned list object refers to the same matches and
    the catalog object is as it was. *)
Example scenario_store :
  let '(out, _, h) :=
    Heap.recommend_speakers Example.json_loads Example.chat_create
      Example.query 3 (Example.float_of_Z 0) [1; 2; 0] [] Example.store in
  out = Returned 8
  ∧ Heap.matches_at h 8
    = Some [Example.scored_ann; Example.scored_cy; Example.scored_bob]
  ∧ h !! 3 = Some (Heap.ListOf [0; 1; 2]).
Proof. vm_compute. repeat split; reflexivity. Qed.

(** An entry whose biography is [null] makes the whole batch raise, after
    the requests for the other entries have been sent. *)
Example scenario_null_bio :
  recommend_speakers Example.json_loads Example.chat_create Example.query
    [Example.ann; Example.dee; Example.cy] (Example.float_of_Z 6) [0; 1] []
  = (Raised Example.not_subscriptable,
     [scoring_request Example.query Example.ann;
      scoring_request Example.query Example.cy]).
Proof. vm_compute. reflexivity. Qed.

(** ** The item scorer *)

Section ScorerFacts.

Context {python : Python}.
Variable json_loads : string → result json.

Lemma build_dict user_bio d :
  Prompt.build user_bio (JDict d)
  = bio ← py_slice_to 800 (default (JStr "N/A") (d !! "bio"));
    Ok (Prompt.text user_bio (default (JStr "N/A") (d !! "name"))
          (default (JStr "N/A") (d !! "title"))
          (default (JStr "N/A") (d !! "organization")) bio).
Proof. reflexivity. Qed.

(** [promptable] is the condition under which the prompt is built. *)
Lemma promptable_build user_bio speaker :
  promptable speaker = true
  ↔ ∃ prompt, Prompt.build user_bio speaker = Ok prompt.
Proof.
  destruct speaker as [| | | | |l|d];
    try (split; [discriminate|intros [prompt Hp]; discriminate Hp]).
  rewrite build_dict. unfold promptable.
  destruct (d !! "bio") as [[]|]; cbn [default py_slice_to mbind result_mbind
    result_bind]; split; try discriminate; eauto;
    intros [prompt Hp]; discriminate Hp.
Qed.

Lemma build_promptable user_bio speaker :
  promptable speaker = true →
  Prompt.build user_bio speaker = Ok (prompt_of user_bio speaker).
Proof.
  intros [prompt Hp]%(promptable_build user_bio).
  unfold prompt_of. now rewrite Hp.
Qed.

Lemma build_unpromptable user_bio speaker :
  promptable speaker = false → ∃ e, Prompt.build user_bio speaker = Err e.
Proof.
  intros Hn. destruct (Prompt.build user_bio speaker) as [prompt|e] eqn:Hb;
    [|eauto].
  assert (promptable speaker = true) by (apply (promptable_build user_bio); eauto).
  congruence.
Qed.

Lemma promptable_dict speaker :
  promptable speaker = true → ∃ d, speaker = JDict d.
Proof. destruct speaker; try discriminate. eauto. Qed.

(** An entry as the scraper writes it has a prompt. *)
Lemma make_promptable name title organization bio :
  promptable (Speaker.make name title organization bio) = true.
Proof.
  unfold promptable, Speaker.make.
  rewrite !lookup_insert_ne by discriminate.
  now rewrite lookup_singleton_eq.
Qed.

Lemma parsed_reply_fails r e :
  step_fails json_loads r e → parsed_reply json_loads r = Err e.
Proof.
  destruct 1 as [e0| |text e Hl|text v e Hl Hg]; simpl; try reflexivity.
  - unfold parsed_reply; simpl. now rewrite Hl.
  - unfold parsed_reply; simpl. rewrite Hl; simpl.
    destruct v; simpl in *; try discriminate; now inversion Hg.
Qed.

Lemma parsed_reply_object text d :
  json_loads (Str.strip text) = Ok (JDict d) →
  parsed_reply json_loads (Ok (Some text)) = Ok d.
Proof. intros Hl. unfold parsed_reply; simpl. now rewrite Hl. Qed.

(** With a prompt, [score_speaker] awaits exactly one call and then
    returns. *)
Lemma score_speaker_single user_bio speaker :
  promptable speaker = true →
  ∃ k, score_speaker json_loads user_bio speaker
       = Await (scoring_request user_bio speaker) k
     ∧ ∀ r, k r = Return (item_result json_loads speaker r).
Proof.
  intros Hp. unfold score_speaker.
  rewrite (build_promptable user_bio speaker Hp).
  destruct (promptable_dict speaker Hp) as [d ->].
  eexists; split; [reflexivity|].
  intros r. unfold item_result, parsed_reply.
  destruct r as [[text|]|e]; simpl; try reflexivity.
  destruct (json_loads (Str.strip text)) as [v|e]; simpl; [|reflexivity].
  destruct v; reflexivity.
Qed.

(** Without one, it raises when it is started and sends nothing. *)
Lemma score_speaker_raises user_bio speaker e :
  Prompt.build user_bio speaker = Err e →
  score_speaker json_loads user_bio speaker = Raise e.
Proof. intros Hb. unfold score_speaker. now rewrite Hb. Qed.

Lemma run_score_speaker chat_create user_bio speaker lg :
  promptable speaker = true →
  run chat_create (score_speaker json_loads user_bio speaker) lg
  = (Ok (item_result json_loads speaker
           (chat_create (length lg) (scoring_request user_bio speaker))),
     lg ++ [scoring_request user_bio speaker]).
Proof.
  intros Hp.
  destruct (score_speaker_single user_bio speaker Hp) as (k & -> & Hk).
  simpl. now rewrite Hk.
Qed.

End ScorerFacts.

(** ** The join *)

Section GatherFacts.

Variable chat_create : provider.
Context {A : Type}.

Lemma all_track_length n (specs : list (request * (reply → A))) ts :
  all_track chat_create n specs ts → length ts = length specs.
Proof.
  revert n ts; induction specs as [|spec specs IH]; intros n [|t ts]; simpl;
    try tauto.
  intros [_ H]. f_equal. eauto.
Qed.

Lemma start_all_tracks ms (specs : list (request * (reply → A))) lg :
  Forall2 single ms specs →
  ∃ ts, start_all ms lg = (ts, lg ++ map fst specs)
        ∧ all_track chat_create (length lg) specs ts.
Proof.
  intros H; revert lg; induction H as [|m spec ms specs Hm _ IH]; intros lg.
  - exists []. simpl. now rewrite app_nil_r.
  - destruct Hm as (k & -> & Hk). simpl.
    destruct (IH (lg ++ [spec.1])) as (ts & -> & Hts).
    eexists; split.
    + now rewrite <- app_assoc.
    + simpl. split; [left; eauto|].
      rewrite length_app, Nat.add_1_r in Hts. exact Hts.
Qed.

Lemma all_track_no_failure n (specs : list (request * (reply → A))) ts :
  all_track chat_create n specs ts → first_failure ts = None.
Proof.
  revert n ts; induction specs as [|spec specs IH]; intros n [|t ts]; simpl;
    try tauto.
  intros [[(k & -> & _)| ->] H]; eauto.
Qed.

Lemma complete_tracks n (specs : list (request * (reply → A))) ts i lg :
  all_track chat_create n specs ts →
  ∃ ts', complete chat_create i ts lg = (ts', lg)
         ∧ all_track chat_create n specs ts'
         ∧ (∀ j, j ≠ i → ts' !! j = ts !! j)
         ∧ (i < length ts → ∃ a, ts' !! i = Some (Done a)).
Proof.
  revert n ts i; induction specs as [|spec specs IH]; intros n [|t ts] i;
    simpl; try tauto.
  - intros _. exists []. unfold complete; simpl. repeat split; auto. lia.
  - intros [Ht Hts]. destruct i as [|i].
    + unfold complete; simpl.
      destruct Ht as [(k & -> & Hk)| ->].
      * rewrite Hk. simpl. eexists; split; [reflexivity|].
        split; [split; [now right|assumption]|].
        split; [intros [|j]; simpl; congruence|eauto].
      * eexists; split; [reflexivity|].
        split; [split; [now right|assumption]|]. split; eauto.
    + destruct (IH (S n) ts i Hts) as (ts' & Hc & Htr & Hne & Hdone).
      exists (t :: ts'). unfold complete in *; simpl.
      destruct (ts !! i) as [[a|e|m req k]|] eqn:Hi.
      * inversion Hc; subst ts'. repeat split; auto. intros Hlt.
        apply Hdone. simpl in Hlt; lia.
      * inversion Hc; subst ts'. repeat split; auto. intros Hlt.
        apply Hdone. simpl in Hlt; lia.
      * destruct (advance (k (chat_create m req)) lg) as [t' lg'] eqn:Ha.
        inversion Hc; subst. repeat split; auto.
        -- intros [|j] Hj; simpl; [reflexivity|]. apply Hne. congruence.
        -- intros Hlt. apply Hdone. simpl in Hlt; lia.
      * inversion Hc; subst ts'. repeat split; auto. intros Hlt.
        apply Hdone. simpl in Hlt; lia.
Qed.

Lemma all_track_results n (specs : list (request * (reply → A))) ts :
  all_track chat_create n specs ts →
  (∀ i, i < length ts → ∃ a, ts !! i = Some (Done a)) →
  results ts = Some (answers chat_create n specs).
Proof.
  revert n ts; induction specs as [|spec specs IH]; intros n [|t ts]; simpl;
    try tauto.
  intros [Ht Hts] Hdone.
  destruct (Hdone 0) as [a Ha]; [lia|]. simpl in Ha. inversion Ha; subst t.
  destruct Ht as [(k & Hk & _)| Ht]; [discriminate|].
  inversion Ht; subst a.
  rewrite (IH (S n) ts Hts); [reflexivity|].
  intros i Hi. apply (Hdone (S i)). lia.
Qed.

(** Once every task occurs in the schedule, the join returns, in the
    order of the tasks, the values the calls determine; the order of the
    schedule plays no part. *)
Lemma gather_loop_complete sched : ∀ n (specs : list (request * (reply → A))) ts lg,
  all_track chat_create n specs ts →
  (∀ i, i < length ts → i ∈ sched ∨ ∃ a, ts !! i = Some (Done a)) →
  gather_loop chat_create sched ts lg = (Returned (answers chat_create n specs), lg).
Proof.
  induction sched as [|i sched IH]; intros n specs ts lg Htr Hcov; simpl;
    rewrite (all_track_no_failure _ _ _ Htr).
  - rewrite (all_track_results n specs ts Htr); [reflexivity|].
    intros i Hi. destruct (Hcov i Hi) as [Hin|?]; [|assumption].
    now apply elem_of_nil in Hin.
  - destruct (complete_tracks n specs ts i lg Htr)
      as (ts' & -> & Htr' & Hne & Hdone).
    apply IH; [assumption|].
    assert (Hlen : length ts' = length ts).
    { now rewrite (all_track_length _ _ _ Htr'), (all_track_length _ _ _ Htr). }
    intros j Hj. rewrite Hlen in Hj.
    destruct (decide (j = i)) as [->|Hji]; [right; now apply Hdone|].
    rewrite (Hne j Hji).
    destruct (Hcov j Hj) as [Hin|?]; [|now right].
    apply elem_of_cons in Hin as [?|?]; [contradiction|now left].
Qed.

Lemma gather_single ms (specs : list (request * (reply → A))) sched lg :
  Forall2 single ms specs →
  (∀ i, i < length ms → i ∈ sched) →
  gather chat_create ms sched lg
  = (Returned (answers chat_create (length lg) specs), lg ++ map fst specs).
Proof.
  intros Hms Hcov. unfold gather.
  destruct (start_all_tracks ms specs lg Hms) as (ts & -> & Htr).
  apply gather_loop_complete; [assumption|].
  intros i Hi. left. apply Hcov.
  rewrite (Forall2_length _ _ _ Hms), <- (all_track_length _ _ _ Htr).
  exact Hi.
Qed.

(** Starting the tasks sends the first request of each, in order. *)
Lemma start_all_log (ms : list (coro A)) lg :
  (start_all ms lg).2 = lg ++ omap first_request ms.
Proof.
  revert lg; induction ms as [|m ms IH]; intros lg; simpl;
    [now rewrite app_nil_r|].
  destruct m as [a|e|req k]; simpl.
  - specialize (IH lg). now destruct (start_all ms lg).
  - specialize (IH lg). now destruct (start_all ms lg).
  - specialize (IH (lg ++ [req])). destruct (start_all ms (lg ++ [req])).
    simpl in *. now rewrite IH, <- app_assoc.
Qed.

Lemma start_all_failure (ms : list (coro A)) lg :
  first_failure (start_all ms lg).1 = first_raise ms.
Proof.
  revert lg; induction ms as [|m ms IH]; intros lg; simpl; [reflexivity|].
  destruct m as [a|e|req k]; simpl.
  - specialize (IH lg). now destruct (start_all ms lg).
  - now destruct (start_all ms lg).
  - specialize (IH (lg ++ [req])). now destruct (start_all ms (lg ++ [req])).
Qed.

(** A coroutine that raises when it is started makes the join raise, once
    every coroutine has been started, whatever completes afterwards. *)
Lemma gather_raises (ms : list (coro A)) sched lg e :
  first_raise ms = Some e →
  gather chat_create ms sched lg = (Raised e, lg ++ omap first_request ms).
Proof.
  intros He. unfold gather.
  pose proof (start_all_log ms lg) as Hl.
  pose proof (start_all_failure ms lg) as Hf.
  destruct (start_all ms lg) as [ts lg1]. simpl in Hl, Hf. subst lg1.
  rewrite He in Hf. destruct sched; simpl; now rewrite Hf.
Qed.

End GatherFacts.

(** ** Order on floats *)

Lemma Qle_bool_false p q : Qle_bool p q = false ↔ (q < p)%Q.
Proof.
  rewrite <- not_true_iff_false, Qle_bool_iff. split.
  - apply Qnot_le_lt.
  - intros H1 H2. exact (Qlt_not_le _ _ H1 H2).
Qed.

Lemma Qltb_true p q : Qltb p q = true ↔ (p < q)%Q.
Proof. unfold Qltb. rewrite negb_true_iff. apply Qle_bool_false. Qed.

Lemma Qltb_false p q : Qltb p q = false ↔ (q <= p)%Q.
Proof. unfold Qltb. rewrite negb_false_iff. apply Qle_bool_iff. Qed.

Lemma float_lt_asym x y : float_lt x y = true → float_lt y x = false.
Proof.
  float_cases. rewrite Qltb_true, Qltb_false. apply Qlt_le_weak.
Qed.

Lemma float_le_trans x y z :
  x ≠ FNaN → y ≠ FNaN → z ≠ FNaN →
  float_lt y x = false → float_lt z y = false → float_lt z x = false.
Proof.
  float_cases. rewrite !Qltb_false. intros _ _ _ H1 H2.
  exact (Qle_trans _ _ _ H1 H2).
Qed.

Lemma float_ge_not_lt x y :
  x ≠ FNaN → y ≠ FNaN → float_ge x y = negb (float_lt x y).
Proof. float_cases. intros _ _. unfold Qltb. now rewrite negb_involutive. Qed.

Lemma float_ge_number x t : float_ge x t = true → x ≠ FNaN.
Proof. float_cases. Qed.

Lemma float_ge_lower x t1 t2 :
  float_lt t1 t2 = true → float_ge x t2 = true → float_ge x t1 = true.
Proof.
  float_cases. rewrite Qltb_true, !Qle_bool_iff. intros H1 H2.
  apply Qlt_le_weak. exact (Qlt_le_trans _ _ _ H1 H2).
Qed.

(** ** The sort *)

Lemma elem_of_rev_iff {A} (x : A) l : x ∈ rev l ↔ x ∈ l.
Proof. rewrite !list_elem_of_In. symmetry. apply in_rev. Qed.

Lemma Forall_rev_iff {A} (P : A → Prop) l : Forall P (rev l) ↔ Forall P l.
Proof. rewrite !Forall_forall. now setoid_rewrite elem_of_rev_iff. Qed.

Section SortFacts.

Context {A : Type} (lt : A → A → bool) (dom : A → Prop).

Hypothesis lt_asym : ∀ x y, lt x y = true → lt y x = false.
Hypothesis le_trans : ∀ x y z, dom x → dom y → dom z →
  lt y x = false → lt z y = false → lt z x = false.

Lemma insert_sorted_perm x l : Permutation (insert_sorted lt x l) (x :: l).
Proof.
  induction l as [|y l IH]; simpl; [reflexivity|].
  destruct (lt y x); [|reflexivity].
  rewrite IH. apply perm_swap.
Qed.

Lemma stable_sort_perm l : Permutation (stable_sort lt l) l.
Proof.
  induction l as [|x l IH]; simpl; [reflexivity|].
  rewrite insert_sorted_perm. now constructor.
Qed.

Lemma list_sort_perm reverse l : Permutation (list_sort lt reverse l) l.
Proof.
  destruct reverse; simpl; [|apply stable_sort_perm].
  rewrite <- Permutation_rev, stable_sort_perm. symmetry.
  apply Permutation_rev.
Qed.

Lemma insert_sorted_asc x l :
  dom x → Forall dom l →
  StronglySorted (asc lt) l → StronglySorted (asc lt) (insert_sorted lt x l).
Proof.
  intros Hx Hl Hs; induction Hs as [|y l Hs IH Hy]; simpl.
  - repeat constructor.
  - inversion Hl as [|? ? Hdy Hdl]; subst.
    destruct (lt y x) eqn:Hyx.
    + constructor; [now apply IH|].
      rewrite (insert_sorted_perm x l). constructor; [|assumption].
      unfold asc. now apply lt_asym.
    + constructor; [now constructor|].
      constructor; [exact Hyx|].
      rewrite Forall_forall in Hy, Hdl |- *. intros z Hz.
      unfold asc in *. apply (le_trans x y z); auto.
Qed.

Lemma stable_sort_asc l :
  Forall dom l → StronglySorted (asc lt) (stable_sort lt l).
Proof.
  induction 1 as [|x l Hx Hl IH]; simpl; [constructor|].
  apply insert_sorted_asc; auto.
  now rewrite stable_sort_perm.
Qed.

Lemma StronglySorted_snoc (R : A → A → Prop) l x :
  StronglySorted R l → Forall (λ y, R y x) l → StronglySorted R (l ++ [x]).
Proof.
  induction 1 as [|y l Hs IH Hy]; simpl; intros Hx.
  - repeat constructor.
  - inversion Hx; subst. constructor; [now apply IH|].
    apply Forall_app; split; [assumption|]. now repeat constructor.
Qed.

Lemma StronglySorted_rev (R : A → A → Prop) l :
  StronglySorted R l → StronglySorted (λ x y, R y x) (rev l).
Proof.
  induction 1 as [|y l Hs IH Hy]; simpl; [constructor|].
  apply StronglySorted_snoc; [assumption|].
  rewrite Forall_forall in Hy |- *. intros z Hz. apply Hy.
  now apply elem_of_rev_iff.
Qed.

(** With [reverse=True] the result is in descending order. *)
Lemma list_sort_desc l :
  Forall dom l → StronglySorted (desc lt) (list_sort lt true l).
Proof.
  intros Hl. simpl.
  apply (StronglySorted_rev (asc lt)). apply stable_sort_asc.
  now apply Forall_rev_iff.
Qed.

(** A stable sort commutes with taking a sub-sequence by a predicate. *)
Lemma filter_insert_sorted (P : A → bool) x l :
  dom x → Forall dom l → StronglySorted (asc lt) l →
  List.filter P (insert_sorted lt x l)
  = if P x then insert_sorted lt x (List.filter P l) else List.filter P l.
Proof.
  intros Hx Hl Hs; induction Hs as [|y l Hs IH Hy]; simpl.
  - now destruct (P x).
  - inversion Hl as [|? ? Hdy Hdl]; subst.
    destruct (lt y x) eqn:Hyx; simpl.
    + rewrite (IH Hdl). destruct (P y), (P x); simpl; try reflexivity.
      now rewrite Hyx.
    + destruct (P x) eqn:Px; [|reflexivity].
      destruct (P y) eqn:Py; simpl; [now rewrite Hyx|].
      clear IH. induction l as [|z l IHl]; simpl; [reflexivity|].
      inversion Hy as [|? ? Hyz Hy']; inversion Hdl as [|? ? Hdz Hdl'];
        inversion Hs as [|? ? Hs' Hz]; subst.
      destruct (P z); simpl.
      * assert (Hzx : lt z x = false) by (apply (le_trans x y z); auto).
        now rewrite Hzx.
      * apply IHl; auto.
Qed.

Lemma filter_stable_sort (P : A → bool) l :
  Forall dom l →
  List.filter P (stable_sort lt l) = stable_sort lt (List.filter P l).
Proof.
  induction 1 as [|x l Hx Hl IH]; simpl; [reflexivity|].
  rewrite filter_insert_sorted; auto.
  - rewrite IH. now destruct (P x).
  - now rewrite stable_sort_perm.
  - now apply stable_sort_asc.
Qed.

Lemma filter_rev (P : A → bool) l :
  List.filter P (rev l) = rev (List.filter P l).
Proof.
  induction l as [|x l IH]; simpl; [reflexivity|].
  rewrite List.filter_app, IH. simpl.
  destruct (P x); simpl; [reflexivity|now rewrite app_nil_r].
Qed.

Lemma filter_list_sort (P : A → bool) reverse l :
  Forall dom l →
  List.filter P (list_sort lt reverse l) = list_sort lt reverse (List.filter P l).
Proof.
  intros Hl. destruct reverse; simpl; [|now apply filter_stable_sort].
  rewrite filter_rev, filter_stable_sort, filter_rev; [reflexivity|].
  now apply Forall_rev_iff.
Qed.

(** A list already in order is left as it is. *)
Lemma stable_sort_sorted l : StronglySorted (asc lt) l → stable_sort lt l = l.
Proof.
  induction 1 as [|x l Hs IH Hx]; simpl; [reflexivity|].
  rewrite IH. destruct l as [|y l]; simpl; [reflexivity|].
  inversion Hx; subst. unfold asc in *. now replace (lt y x) with false.
Qed.

Lemma list_sort_sorted l : StronglySorted (desc lt) l → list_sort lt true l = l.
Proof.
  intros Hs. simpl. rewrite stable_sort_sorted; [apply rev_involutive|].
  apply (StronglySorted_rev (desc lt)). exact Hs.
Qed.

End SortFacts.

(** ** Filter and rank *)

Section RankFacts.

Context {A : Type} (score_of : A → json).

Lemma keep_above_numbers threshold scored :
  Forall (number score_of) scored →
  keep_above score_of threshold scored
  = Ok (List.filter (passes score_of threshold) scored).
Proof.
  induction 1 as [|s scored [x Hx] _ IH]; simpl; [reflexivity|].
  unfold py_ge, passes. rewrite Hx; simpl. rewrite IH; simpl.
  now destruct (float_ge x threshold).
Qed.

Lemma keep_above_Ok threshold scored kept :
  keep_above score_of threshold scored = Ok kept → Forall (number score_of) scored.
Proof.
  revert kept; induction scored as [|s scored IH]; intros kept; simpl;
    [constructor|].
  unfold py_ge. destruct (as_number (score_of s)) as [x|] eqn:Hx; simpl;
    [|discriminate].
  destruct (keep_above score_of threshold scored) as [rest|e]; simpl;
    [|discriminate].
  intros _. constructor; [unfold number; rewrite Hx; eauto|eauto].
Qed.

(** Whatever passes the filter is a number other than NaN. *)
Lemma kept_is_number threshold s :
  passes score_of threshold s = true → comparable score_of s.
Proof.
  unfold passes, comparable.
  destruct (as_number (score_of s)) as [x|]; [|discriminate].
  intros H. exists x. split; [reflexivity|]. exact (float_ge_number _ _ H).
Qed.

Lemma kept_comparable threshold scored :
  Forall (comparable score_of) (List.filter (passes score_of threshold) scored).
Proof.
  rewrite Forall_forall. intros s Hs.
  apply list_elem_of_In, filter_In in Hs as [_ Hs].
  exact (kept_is_number _ _ Hs).
Qed.

Lemma score_lt_asym a b : score_lt score_of a b = true → score_lt score_of b a = false.
Proof.
  unfold score_lt, key_lt.
  destruct (as_number (score_of a)), (as_number (score_of b));
    try discriminate; try reflexivity.
  apply float_lt_asym.
Qed.

Lemma score_le_trans a b c :
  comparable score_of a → comparable score_of b → comparable score_of c →
  score_lt score_of b a = false → score_lt score_of c b = false →
  score_lt score_of c a = false.
Proof.
  unfold score_lt, key_lt.
  intros (x & -> & Hx) (y & -> & Hy) (z & -> & Hz).
  now apply float_le_trans.
Qed.

Lemma desc_score_ge a b :
  comparable score_of a → comparable score_of b →
  score_lt score_of a b = false → score_ge score_of a b = true.
Proof.
  unfold score_lt, key_lt, score_ge.
  intros (x & -> & Hx) (y & -> & Hy) H.
  now rewrite float_ge_not_lt, H.
Qed.

Lemma same_score_not_lt x a b :
  same_score score_of x a = true → same_score score_of x b = true →
  score_lt score_of a b = false.
Proof.
  unfold same_score, score_ge, score_lt, key_lt.
  destruct (as_number (score_of x)) as [u|]; [|discriminate].
  destruct (as_number (score_of a)) as [v|]; [|discriminate].
  destruct (as_number (score_of b)) as [w|]; [|now rewrite andb_false_r].
  rewrite !andb_true_iff. intros [H1 H2] [H3 H4]. revert H1 H2 H3 H4.
  float_cases. rewrite !Qle_bool_iff, Qltb_false. intros _ H2 H3 _.
  exact (Qle_trans _ _ _ H3 H2).
Qed.

Lemma rank_numbers threshold scored :
  Forall (number score_of) scored →
  rank score_of threshold scored
  = Ok (sort_by_score score_of (List.filter (passes score_of threshold) scored)).
Proof. intros H. unfold rank. now rewrite keep_above_numbers. Qed.

Lemma StronglySorted_impl (P : A → Prop) (R R' : A → A → Prop) l :
  (∀ a b, P a → P b → R a b → R' a b) →
  Forall P l → StronglySorted R l → StronglySorted R' l.
Proof.
  intros HR Hl Hs; induction Hs as [|x l Hs IH Hx]; [constructor|].
  inversion Hl as [|? ? Px Pl]; subst. constructor; [now apply IH|].
  rewrite Forall_forall in Hx, Pl |- *. intros y Hy. apply HR; auto.
Qed.

Lemma all_same_sorted x l :
  Forall (λ a, same_score score_of x a = true) l →
  StronglySorted (desc (score_lt score_of)) l.
Proof.
  induction 1 as [|a l Ha Hl IH]; constructor; [assumption|].
  rewrite Forall_forall in Hl |- *. intros b Hb.
  exact (same_score_not_lt x a b Ha (Hl b Hb)).
Qed.

(** The output of the sort for comparable keys. *)
Lemma sort_by_score_perm l : Permutation (sort_by_score score_of l) l.
Proof. apply list_sort_perm. Qed.

Lemma sort_by_score_sorted l :
  Forall (comparable score_of) l →
  StronglySorted (λ a b, score_ge score_of a b = true) (sort_by_score score_of l).
Proof.
  intros Hl.
  apply (StronglySorted_impl (comparable score_of) (desc (score_lt score_of))).
  - intros a b Ha Hb. now apply desc_score_ge.
  - unfold sort_by_score. now rewrite list_sort_perm.
  - apply (list_sort_desc (score_lt score_of) (comparable score_of) score_lt_asym
             score_le_trans).
    exact Hl.
Qed.

Lemma filter_sort_by_score (P : A → bool) l :
  Forall (comparable score_of) l →
  List.filter P (sort_by_score score_of l)
  = sort_by_score score_of (List.filter P l).
Proof.
  apply (filter_list_sort (score_lt score_of) (comparable score_of)
           score_lt_asym score_le_trans).
Qed.

Lemma sort_by_score_stable x l :
  Forall (comparable score_of) l →
  List.filter (same_score score_of x) (sort_by_score score_of l)
  = List.filter (same_score score_of x) l.
Proof.
  intros Hl. rewrite filter_sort_by_score by assumption.
  apply (list_sort_sorted (score_lt score_of)), (all_same_sorted x).
  rewrite Forall_forall. intros a Ha.
  now apply list_elem_of_In, filter_In in Ha as [_ Ha].
Qed.

End RankFacts.

(** ** The fan-out *)

Section MatcherFacts.

Context {python : Python}.
Variable json_loads : string → result json.
Variable chat_create : provider.

Lemma tasks_single user_bio speakers :
  all_promptable speakers →
  Forall2 single (map (score_speaker json_loads user_bio) speakers)
    (scoring_specs json_loads user_bio speakers).
Proof.
  induction 1 as [|speaker speakers Hp _ IH]; simpl; constructor;
    [|exact IH].
  now apply score_speaker_single.
Qed.

Lemma answers_scored_batch user_bio n speakers :
  answers chat_create n (scoring_specs json_loads user_bio speakers)
  = scored_batch json_loads chat_create user_bio n speakers.
Proof.
  revert n; induction speakers as [|speaker speakers IH]; intros n; simpl;
    [reflexivity|].
  now rewrite IH.
Qed.

Lemma scoring_specs_requests user_bio speakers :
  map fst (scoring_specs json_loads user_bio speakers)
  = map (scoring_request user_bio) speakers.
Proof. unfold scoring_specs. rewrite map_map. reflexivity. Qed.

Lemma scoring_requests_all user_bio speakers :
  all_promptable speakers →
  scoring_requests user_bio speakers
  = map (scoring_request user_bio) speakers.
Proof.
  unfold scoring_requests.
  induction 1 as [|speaker speakers Hp _ IH]; simpl; [reflexivity|].
  rewrite Hp. simpl. now rewrite IH.
Qed.

Lemma prompt_failure_None user_bio speakers :
  prompt_failure user_bio speakers = None ↔ all_promptable speakers.
Proof.
  induction speakers as [|speaker speakers IH]; simpl.
  - split; [constructor|reflexivity].
  - destruct (Prompt.build user_bio speaker) as [prompt|e] eqn:Hb.
    + rewrite IH. split.
      * intros Hall. constructor; [|exact Hall].
        apply (promptable_build user_bio). eauto.
      * now inversion 1.
    + split; [discriminate|]. inversion 1 as [|? ? Hp _]; subst.
      apply (promptable_build user_bio) in Hp as [prompt Hp]. congruence.
Qed.

(** The tasks that raise when started are those without a prompt. *)
Lemma first_raise_tasks user_bio speakers :
  first_raise (map (score_speaker json_loads user_bio) speakers)
  = prompt_failure user_bio speakers.
Proof.
  induction speakers as [|speaker speakers IH]; simpl; [reflexivity|].
  destruct (Prompt.build user_bio speaker) as [prompt|e] eqn:Hb.
  - assert (Hp : promptable speaker = true)
      by (apply (promptable_build user_bio); eauto).
    destruct (score_speaker_single json_loads user_bio speaker Hp)
      as (k & -> & _).
    exact IH.
  - now rewrite (score_speaker_raises json_loads user_bio speaker e Hb).
Qed.

Lemma first_request_tasks user_bio speakers :
  omap first_request (map (score_speaker json_loads user_bio) speakers)
  = scoring_requests user_bio speakers.
Proof.
  unfold scoring_requests.
  induction speakers as [|speaker speakers IH]; simpl; [reflexivity|].
  destruct (promptable speaker) eqn:Hp.
  - destruct (score_speaker_single json_loads user_bio speaker Hp)
      as (k & -> & _).
    simpl. f_equal. exact IH.
  - destruct (build_unpromptable user_bio speaker Hp) as [e Hb].
    rewrite (score_speaker_raises json_loads user_bio speaker e Hb).
    simpl. exact IH.
Qed.

Lemma gather_scores user_bio speakers sched lg :
  all_promptable speakers →
  (∀ i, i < length speakers → i ∈ sched) →
  gather chat_create (map (score_speaker json_loads user_bio) speakers)
    sched lg
  = (Returned (scored_batch json_loads chat_create user_bio (length lg)
                 speakers),
     lg ++ map (scoring_request user_bio) speakers).
Proof.
  intros Hall Hcov.
  rewrite (gather_single chat_create _ (scoring_specs json_loads user_bio speakers)).
  - now rewrite answers_scored_batch, scoring_specs_requests.
  - now apply tasks_single.
  - intros i Hi. apply Hcov. now rewrite length_map in Hi.
Qed.

Lemma scored_batch_length user_bio n speakers :
  length (scored_batch json_loads chat_create user_bio n speakers)
  = length speakers.
Proof.
  revert n; induction speakers as [|speaker speakers IH]; intros n; simpl;
    [reflexivity|].
  now rewrite IH.
Qed.

Lemma scored_batch_lookup user_bio n speakers i speaker :
  speakers !! i = Some speaker →
  scored_batch json_loads chat_create user_bio n speakers !! i
  = Some (item_result json_loads speaker
            (chat_create (n + i) (scoring_request user_bio speaker))).
Proof.
  revert n i; induction speakers as [|sp speakers IH]; intros n [|i]; simpl;
    try discriminate.
  - intros [= ->]. now rewrite Nat.add_0_r.
  - intros H. rewrite (IH (S n) i H). do 3 f_equal. lia.
Qed.

(** With a prompt for every speaker and every call completing,
    [recommend_speakers] ranks the scored batch. *)
Lemma recommend_speakers_ranks user_bio speakers threshold sched lg :
  all_promptable speakers →
  (∀ i, i < length speakers → i ∈ sched) →
  recommend_speakers json_loads chat_create user_bio speakers threshold
    sched lg
  = (match rank Scored.score threshold
             (scored_batch json_loads chat_create user_bio (length lg)
                speakers) with
     | Ok matches => Returned matches
     | Err e => Raised e
     end,
     lg ++ map (scoring_request user_bio) speakers).
Proof.
  intros Hall Hcov. unfold recommend_speakers.
  rewrite (gather_scores _ _ _ _ Hall Hcov).
  now destruct (rank _ _ _).
Qed.

(** A speaker without a prompt makes [recommend_speakers] raise, after
    the requests of the speakers that have one, whatever the schedule. *)
Lemma recommend_speakers_unpromptable user_bio speakers threshold sched lg e :
  prompt_failure user_bio speakers = Some e →
  recommend_speakers json_loads chat_create user_bio speakers threshold
    sched lg
  = (Raised e, lg ++ scoring_requests user_bio speakers).
Proof.
  intros He. unfold recommend_speakers.
  rewrite (gather_raises chat_create _ sched lg e)
    by now rewrite first_raise_tasks.
  now rewrite first_request_tasks.
Qed.

Lemma prompt_failure_cases user_bio speakers :
  all_promptable speakers ∨ ∃ e, prompt_failure user_bio speakers = Some e.
Proof.
  destruct (prompt_failure user_bio speakers) as [e|] eqn:Hf; [eauto|].
  left. now apply (prompt_failure_None user_bio).
Qed.

End MatcherFacts.

(** ** Claims *)

(** C1, as stated, fails for an entry whose biography is [null]: the
    prompt is built before the [try], the slice raises a [TypeError], and
    the exception leaves [score_speaker]; no request has been sent. *)
Lemma null_bio_escapes :
  ¬ (∀ (python : Python) json_loads chat_create user_bio speaker lg,
       ∃ m lg',
         run chat_create (score_speaker json_loads user_bio speaker) lg
         = (Ok m, lg')).
Proof.
  intros H.
  destruct (H Example.python Example.json_loads Example.chat_create
              Example.query Example.dee []) as (m & lg' & Hrun).
  vm_compute in Hrun. discriminate Hrun.
Qed.

(** C1, amended (failure containment).  For an entry whose prompt can be
    built, awaiting [score_speaker] returns a match and sends exactly one
    request, the prompt; whenever a step inside the [try] failed on the
    provider's answer (the call raised, the message had no text, the text
    is not JSON, or the JSON value is not an object), the match has score 0
    and its reasoning is ["Error: "] followed by the text of the exception.
    No exception leaves [score_speaker] once the prompt is built. *)
Theorem score_speaker_contains_failures {python : Python}
    (json_loads : string → result json) (chat_create : provider)
    (user_bio : string) (speaker : Speaker.t) (lg : log) :
  promptable speaker = true →
  ∃ prompt m,
    Prompt.build user_bio speaker = Ok prompt
    ∧ run chat_create (score_speaker json_loads user_bio speaker) lg
      = (Ok m, lg ++ [[("user", prompt)]])
    ∧ ∀ e,
        step_fails json_loads
          (chat_create (length lg) [("user", prompt)]) e →
        Scored.score m = JInt 0
        ∧ Scored.reasoning m = JStr ("Error: " +:+ exn_str e).
Proof.
  intros Hp. exists (prompt_of user_bio speaker). eexists.
  split; [now apply build_promptable|].
  split; [now apply run_score_speaker|].
  intros e He. unfold item_result, scoring_request.
  now rewrite (parsed_reply_fails _ _ _ He).
Qed.

Lemma score_speaker_contains_failures_witness :
  ∃ m,
    run Example.chat_create
      (score_speaker Example.json_loads Example.query Example.bob)
      [scoring_request Example.query Example.ann]
    = (Ok m, [scoring_request Example.query Example.ann;
              scoring_request Example.query Example.bob])
    ∧ Scored.score m = JInt 0
    ∧ Scored.reasoning m
      = JStr "Error: Error generating text: Connection error.".
Proof.
  destruct (score_speaker_contains_failures Example.json_loads
              Example.chat_create Example.query Example.bob
              [scoring_request Example.query Example.ann] eq_refl)
    as (prompt & m & Hb & Hrun & Hm).
  vm_compute in Hb. injection Hb as <-.
  exists m. split; [exact Hrun|].
  exact (Hm _ (provider_raises Example.json_loads Example.connection_error)).
Defined.

(** C2, as stated, fails for a catalog that holds an entry whose biography
    is [null]: the task of that entry raises when it is started, the join
    raises, and there are no scored items at all. *)
Lemma null_bio_aborts_batch :
  ¬ (∀ (python : Python) json_loads chat_create user_bio speakers sched lg,
       (∀ i, i < length speakers → i ∈ sched) →
       ∃ scored lg',
         gather chat_create
           (map (score_speaker json_loads user_bio) speakers) sched lg
         = (Returned scored, lg')
         ∧ length scored = length speakers).
Proof.
  intros H.
  destruct (H Example.python Example.json_loads Example.chat_create
              Example.query [Example.ann; Example.dee; Example.cy]
              [0; 1; 2] []) as (scored & lg' & Hg & _).
  - intros i Hi. simpl in Hi.
    destruct i as [|[|[|i]]]; [repeat constructor..|lia].
  - vm_compute in Hg. discriminate Hg.
Qed.

(** C2, amended (batch completeness).  For a catalog of N entries whose
    prompts can all be built and any provider, once every one of the N
    calls completes, in whatever order, the join in [recommend_speakers]
    returns exactly N matches: the [i]-th is the match of the [i]-th speaker
    for the answer to the [i]-th call, be it a success or a failure.  N
    requests have been sent, in catalog order. *)
Theorem fan_out_complete {python : Python}
    (json_loads : string → result json) (chat_create : provider)
    (user_bio : string) (speakers : list Speaker.t) (sched : list nat)
    (lg : log) :
  all_promptable speakers →
  (∀ i, i < length speakers → i ∈ sched) →
  ∃ scored,
    gather chat_create (map (score_speaker json_loads user_bio) speakers)
      sched lg
    = (Returned scored, lg ++ map (scoring_request user_bio) speakers)
    ∧ length scored = length speakers
    ∧ ∀ i speaker, speakers !! i = Some speaker →
        scored !! i
        = Some (item_result json_loads speaker
                  (chat_create (length lg + i)
                     (scoring_request user_bio speaker))).
Proof.
  intros Hall Hcov. eexists. split; [now apply gather_scores|].
  split; [apply scored_batch_length|].
  intros i speaker. apply scored_batch_lookup.
Qed.

Lemma fan_out_complete_witness :
  ∃ scored,
    gather Example.chat_create
      (map (score_speaker Example.json_loads Example.query) Example.catalog)
      [2; 0; 1] []
    = (Returned scored, Example.requests)
    ∧ length scored = 3
    ∧ scored !! 1 = Some Example.scored_bob.
Proof.
  destruct (fan_out_complete Example.json_loads Example.chat_create
              Example.query Example.catalog [2; 0; 1] [])
    as (scored & Hg & Hlen & Hi).
  - repeat constructor.
  - intros i Hi. simpl in Hi.
    destruct i as [|[|[|i]]]; [repeat constructor..|lia].
  - exists scored. split; [exact Hg|]. split; [exact Hlen|].
    exact (Hi 1 Example.bob eq_refl).
Defined.

(** C3, as stated, fails for a batch that holds a score that is not a
    number: with a reply whose score is the text [high], the comparison
    with the threshold raises and [recommend_speakers] returns nothing. *)
Lemma text_score_not_ranked :
  ¬ (∀ (python : Python) json_loads chat_create user_bio speakers threshold
       sched lg,
       all_promptable speakers →
       (∀ i, i < length speakers → i ∈ sched) →
       ∃ ranked lg',
         recommend_speakers json_loads chat_create user_bio speakers
           threshold sched lg
         = (Returned ranked, lg')).
Proof.
  intros H.
  destruct (H Example.python Example.json_loads Example.wordy_create
              Example.query [Example.ann] (Example.float_of_Z 6) [0] [])
    as (ranked & lg' & Hr).
  - repeat constructor.
  - intros i Hi. simpl in Hi. destruct i; [repeat constructor|lia].
  - vm_compute in Hr. discriminate Hr.
Qed.

(** C3, amended (rank and filter).  For every sequence of scored matches
    whose scores are numbers and every threshold, the filter-and-sort
    returns exactly the entries with [score >= threshold] (each as often
    as it occurs), in non-increasing order of score, entries of equal score
    in their original relative order; and that is what
    [recommend_speakers] returns in every run whose scored batch is this
    sequence. *)
Theorem rank_postcondition (threshold : pyfloat) (scored : list Scored.t) :
  Forall (number Scored.score) scored →
  ∃ ranked,
    rank Scored.score threshold scored = Ok ranked
    ∧ Permutation ranked (List.filter (passes Scored.score threshold) scored)
    ∧ StronglySorted (λ a b, score_ge Scored.score a b = true) ranked
    ∧ (∀ x, List.filter (same_score Scored.score x) ranked
            = List.filter (same_score Scored.score x)
                (List.filter (passes Scored.score threshold) scored))
    ∧ ∀ (python : Python) json_loads chat_create user_bio speakers sched lg,
        all_promptable speakers →
        (∀ i, i < length speakers → i ∈ sched) →
        scored_batch json_loads chat_create user_bio (length lg) speakers
        = scored →
        recommend_speakers json_loads chat_create user_bio speakers
          threshold sched lg
        = (Returned ranked, lg ++ map (scoring_request user_bio) speakers).
Proof.
  intros Hnum. eexists. split; [now apply rank_numbers|].
  split; [apply sort_by_score_perm|].
  split; [apply sort_by_score_sorted, kept_comparable|].
  split; [intros x; apply sort_by_score_stable, kept_comparable|].
  intros python json_loads chat_create user_bio speakers sched lg Hall Hcov
    Hbatch.
  rewrite recommend_speakers_ranks by assumption.
  now rewrite Hbatch, (rank_numbers _ _ _ Hnum).
Qed.

Lemma rank_postcondition_witness :
  ∃ ranked,
    rank Scored.score (Example.float_of_Z 0)
      [Example.scored_ann; Example.scored_bob; Example.scored_cy] = Ok ranked
    ∧ Permutation ranked
        [Example.scored_ann; Example.scored_bob; Example.scored_cy]
    ∧ StronglySorted (λ a b, score_ge Scored.score a b = true) ranked
    ∧ recommend_speakers Example.json_loads Example.chat_create
        Example.query Example.catalog (Example.float_of_Z 0) [1; 2; 0] []
      = (Returned ranked, Example.requests).
Proof.
  destruct (rank_postcondition (Example.float_of_Z 0)
              [Example.scored_ann; Example.scored_bob; Example.scored_cy])
    as (ranked & Hr & Hperm & Hsorted & _ & Hrec).
  - repeat (constructor; [eexists; reflexivity|]). constructor.
  - exists ranked. split; [exact Hr|]. split; [exact Hperm|].
    split; [exact Hsorted|].
    apply (Hrec Example.python Example.json_loads Example.chat_create
             Example.query Example.catalog [1; 2; 0] []).
    + repeat constructor.
    + intros i Hi. simpl in Hi.
      destruct i as [|[|[|i]]]; [repeat constructor..|lia].
    + reflexivity.
Defined.

(** C4 (threshold monotonicity).  For one scored batch and thresholds
    [t1 < t2], if the filter succeeds at [t2] it succeeds at [t1], and
    what passes at [t2] is a sub-sequence, hence a subset, of what passes at
    [t1]. *)
Theorem threshold_monotone (t1 t2 : pyfloat) (scored kept2 : list Scored.t) :
  float_lt t1 t2 = true →
  keep_above Scored.score t2 scored = Ok kept2 →
  ∃ kept1,
    keep_above Scored.score t1 scored = Ok kept1
    ∧ kept2 `sublist_of` kept1
    ∧ ∀ s, s ∈ kept2 → s ∈ kept1.
Proof.
  intros Hlt H2.
  pose proof (keep_above_Ok _ _ _ _ H2) as Hnum.
  rewrite (keep_above_numbers _ _ _ Hnum) in H2. inversion H2; subst kept2.
  exists (List.filter (passes Scored.score t1) scored).
  split; [now apply keep_above_numbers|].
  assert (Hsub : List.filter (passes Scored.score t2) scored
                 `sublist_of` List.filter (passes Scored.score t1) scored).
  { clear -Hlt. induction scored as [|s scored IH]; simpl; [constructor|].
    destruct (passes Scored.score t2 s) eqn:P2.
    - replace (passes Scored.score t1 s) with true; [now constructor|].
      symmetry. unfold passes in *.
      destruct (as_number (Scored.score s)); [|discriminate].
      exact (float_ge_lower _ _ _ Hlt P2).
    - destruct (passes Scored.score t1 s); [now constructor|exact IH]. }
  split; [exact Hsub|].
  intros s Hs. exact (elem_of_sublist _ _ _ Hs Hsub).
Qed.

Lemma threshold_monotone_witness :
  ∃ kept1,
    keep_above Scored.score (Example.float_of_Z 0)
      [Example.scored_ann; Example.scored_bob; Example.scored_cy] = Ok kept1
    ∧ [Example.scored_ann; Example.scored_cy] `sublist_of` kept1
    ∧ ∀ s, s ∈ [Example.scored_ann; Example.scored_cy] → s ∈ kept1.
Proof.
  apply (threshold_monotone (Example.float_of_Z 0) (Example.float_of_Z 6)
           [Example.scored_ann; Example.scored_bob; Example.scored_cy]);
    reflexivity.
Defined.

(** C5 (missing keys).  When the reply to the request of a speaker parses
    to a JSON object, [score_speaker] returns from the [try] branch: the
    score is the value under ["score"], or 0 without that key, and the
    reasoning is the value under ["reasoning"], or the empty string without
    that key.  An object lacking either key is not an error. *)
Theorem missing_keys_default {python : Python}
    (json_loads : string → result json) (chat_create : provider)
    (user_bio : string) (speaker : Speaker.t) (lg : log)
    (text : string) (d : gmap string json) :
  promptable speaker = true →
  chat_create (length lg) (scoring_request user_bio speaker) = Ok (Some text) →
  json_loads (Str.strip text) = Ok (JDict d) →
  ∃ m,
    run chat_create (score_speaker json_loads user_bio speaker) lg
    = (Ok m, lg ++ [scoring_request user_bio speaker])
    ∧ Scored.score m = default (JInt 0) (d !! "score")
    ∧ Scored.reasoning m = default (JStr EmptyString) (d !! "reasoning")
    ∧ (d !! "score" = None → Scored.score m = JInt 0)
    ∧ (d !! "reasoning" = None → Scored.reasoning m = JStr EmptyString).
Proof.
  intros Hp Hr Hl. eexists. split; [now apply run_score_speaker|].
  rewrite Hr. unfold item_result.
  rewrite (parsed_reply_object _ _ _ Hl). simpl.
  repeat split; intros ->; reflexivity.
Qed.

Lemma missing_keys_default_witness :
  ∃ m,
    run Example.vague_create
      (score_speaker Example.json_loads Example.query Example.ann) []
    = (Ok m, [scoring_request Example.query Example.ann])
    ∧ Scored.score m = JInt 0
    ∧ Scored.reasoning m = JStr EmptyString.
Proof.
  destruct (missing_keys_default Example.json_loads Example.vague_create
              Example.query Example.ann []
              ("{" +:+ Str.quoted "verdict" +:+ ": 9}")
              {["verdict" := JInt 9]} eq_refl eq_refl eq_refl)
    as (m & Hrun & _ & _ & Hs & Hr).
  exists m. split; [exact Hrun|].
  split; [exact (Hs eq_refl)|exact (Hr eq_refl)].
Defined.

(** ** Rankings with positions *)

Section Naturality.

Context {A B : Type} (g : B → A) (score_of : A → json).

Lemma keep_above_map threshold l :
  keep_above score_of threshold (map g l)
  = result_map (map g) (keep_above (λ b, score_of (g b)) threshold l).
Proof.
  induction l as [|b l IH]; simpl; [reflexivity|].
  destruct (py_ge (score_of (g b)) threshold) as [keep|e]; simpl;
    [|reflexivity].
  rewrite IH.
  destruct (keep_above (λ b, score_of (g b)) threshold l) as [rest|e]; simpl;
    [|reflexivity].
  now destruct keep.
Qed.

Lemma insert_sorted_map (lt : A → A → bool) x l :
  insert_sorted lt (g x) (map g l)
  = map g (insert_sorted (λ a b, lt (g a) (g b)) x l).
Proof.
  induction l as [|y l IH]; simpl; [reflexivity|].
  destruct (lt (g y) (g x)); simpl; [now rewrite IH|reflexivity].
Qed.

Lemma stable_sort_map (lt : A → A → bool) l :
  stable_sort lt (map g l) = map g (stable_sort (λ a b, lt (g a) (g b)) l).
Proof.
  induction l as [|x l IH]; simpl; [reflexivity|].
  now rewrite IH, insert_sorted_map.
Qed.

Lemma list_sort_map (lt : A → A → bool) reverse l :
  list_sort lt reverse (map g l)
  = map g (list_sort (λ a b, lt (g a) (g b)) reverse l).
Proof.
  destruct reverse; simpl; [|apply stable_sort_map].
  now rewrite <- map_rev, stable_sort_map, map_rev.
Qed.

Lemma rank_map threshold l :
  rank score_of threshold (map g l)
  = result_map (map g) (rank (λ b, score_of (g b)) threshold l).
Proof.
  unfold rank. rewrite keep_above_map.
  destruct (keep_above (λ b, score_of (g b)) threshold l) as [kept|e]; simpl;
    [|reflexivity].
  unfold sort_by_score. now rewrite list_sort_map.
Qed.

End Naturality.

Lemma map_snd_indexed_from {A} n (l : list A) : map snd (indexed_from n l) = l.
Proof.
  revert n; induction l as [|x l IH]; intros n; simpl; [reflexivity|].
  now rewrite IH.
Qed.

Lemma indexed_from_map {A B} (f : A → B) n (l : list A) :
  indexed_from n (map f l) = map (λ p, (p.1, f p.2)) (indexed_from n l).
Proof.
  revert n; induction l as [|x l IH]; intros n; simpl; [reflexivity|].
  now rewrite IH.
Qed.

(** The matches returned are the ranking, positions dropped. *)
Lemma rank_of_ranking threshold scored :
  rank Scored.score threshold scored
  = result_map (map snd) (ranking threshold scored).
Proof.
  unfold ranking, indexed.
  rewrite <- (rank_map snd Scored.score). now rewrite map_snd_indexed_from.
Qed.

(** The positions of a ranking are those of the ranking of the scores. *)
Lemma ranking_scores threshold scored :
  ranking_of_scores threshold (map Scored.score scored)
  = result_map (map (λ p, (p.1, Scored.score p.2))) (ranking threshold scored).
Proof.
  unfold ranking_of_scores, ranking, indexed.
  rewrite indexed_from_map. apply (rank_map (λ p, (p.1, Scored.score p.2)) snd).
Qed.

Lemma filter_comm {A} (P Q : A → bool) l :
  List.filter P (List.filter Q l) = List.filter Q (List.filter P l).
Proof.
  induction l as [|x l IH]; simpl; [reflexivity|].
  destruct (P x) eqn:HP, (Q x) eqn:HQ; simpl; rewrite ?HP, ?HQ, IH; reflexivity.
Qed.

Lemma without_indexed_from {A} k n (l l' : list A) :
  length l' = length l →
  (∀ i, n + i ≠ k → l' !! i = l !! i) →
  without k (indexed_from n l') = without k (indexed_from n l).
Proof.
  revert n l'; induction l as [|x l IH]; intros n [|x' l']; simpl;
    try discriminate; [reflexivity|].
  intros [= Hlen] Hagree. unfold without in *. simpl.
  rewrite (IH (S n) l' Hlen).
  - destruct (n =? k) eqn:Hn; simpl; [reflexivity|].
    apply Nat.eqb_neq in Hn.
    specialize (Hagree 0). simpl in Hagree. rewrite Nat.add_0_r in Hagree.
    now injection (Hagree Hn) as ->.
  - intros i Hi. apply (Hagree (S i)). lia.
Qed.

Lemma number_indexed_from n (l : list Scored.t) :
  Forall (number Scored.score) l →
  Forall (number (λ p : nat * Scored.t, Scored.score p.2)) (indexed_from n l).
Proof.
  intros H; revert n; induction H as [|x l Hx _ IH]; intros n; simpl;
    constructor; auto.
Qed.

Lemma indexed_from_number n (l : list Scored.t) :
  Forall (number (λ p : nat * Scored.t, Scored.score p.2)) (indexed_from n l) →
  Forall (number Scored.score) l.
Proof.
  revert n; induction l as [|x l IH]; intros n; simpl; [constructor|].
  inversion 1; subst. constructor; eauto.
Qed.

(** Two batches that agree except at position [k] rank alike once the entry
    of position [k] is left out. *)
Lemma ranking_frame threshold k scored scored' ranked :
  length scored' = length scored →
  (∀ i, i ≠ k → scored' !! i = scored !! i) →
  Forall (number Scored.score) scored' →
  ranking threshold scored = Ok ranked →
  ∃ ranked', ranking threshold scored' = Ok ranked'
             ∧ without k ranked' = without k ranked.
Proof.
  intros Hlen Hagree Hnum' Hr. unfold ranking in *.
  assert (Hnum : Forall (number Scored.score) scored).
  { unfold rank in Hr.
    destruct (keep_above _ threshold (indexed scored)) as [kept|e] eqn:Hk;
      [|discriminate].
    exact (indexed_from_number 0 _ (keep_above_Ok _ _ _ _ Hk)). }
  rewrite rank_numbers in Hr by now apply number_indexed_from.
  inversion Hr; subst ranked.
  rewrite rank_numbers by now apply number_indexed_from.
  eexists; split; [reflexivity|]. unfold without.
  rewrite !filter_sort_by_score by apply kept_comparable.
  rewrite !(filter_comm _ (passes _ threshold)). do 2 f_equal.
  apply (without_indexed_from k 0); assumption.
Qed.

Section FrameFacts.

Context {python : Python}.
Variable json_loads : string → result json.

Lemma scored_batch_fail_at chat_create user_bio m e n speakers i :
  n + i ≠ m →
  scored_batch json_loads (fail_at chat_create m e) user_bio n speakers !! i
  = scored_batch json_loads chat_create user_bio n speakers !! i.
Proof.
  revert n i; induction speakers as [|sp speakers IH]; intros n [|i] Hne;
    simpl; try reflexivity.
  - unfold fail_at. rewrite Nat.add_0_r in Hne.
    apply Nat.eqb_neq in Hne. now rewrite Hne.
  - apply IH. lia.
Qed.

(** A failed call leaves a zero-score match, which is a number. *)
Lemma scored_batch_fail_at_number chat_create user_bio m e n speakers :
  Forall (number Scored.score)
    (scored_batch json_loads chat_create user_bio n speakers) →
  Forall (number Scored.score)
    (scored_batch json_loads (fail_at chat_create m e) user_bio n speakers).
Proof.
  revert n; induction speakers as [|sp speakers IH]; intros n; simpl;
    [constructor|].
  inversion 1 as [|? ? Hx Hl]; subst. constructor; [|now apply IH].
  unfold fail_at. destruct (n =? m); [|exact Hx].
  unfold number; simpl; eauto.
Qed.

End FrameFacts.

(** C9 (completion-order independence).  Two runs of [recommend_speakers]
    whose calls complete in different orders give the same result and the
    same requests.  With a prompt for every speaker, the result is the
    ranking of the scored batch with the positions dropped, and the
    positions in that ranking are those of the ranking of the bare scores,
    so the order depends on the scores and the catalog order alone.  If the
    call for item [k] is made to fail, the ranking of the other items is
    unchanged. *)
Theorem completion_order_independent {python : Python}
    (json_loads : string → result json) (chat_create : provider)
    (user_bio : string) (speakers : list Speaker.t) (threshold : pyfloat)
    (sched1 sched2 : list nat) (lg : log) :
  (∀ i, i < length speakers → i ∈ sched1) →
  (∀ i, i < length speakers → i ∈ sched2) →
  let batch := scored_batch json_loads chat_create user_bio (length lg) speakers in
  let lg' := lg ++ map (scoring_request user_bio) speakers in
  recommend_speakers json_loads chat_create user_bio speakers threshold sched1 lg
  = recommend_speakers json_loads chat_create user_bio speakers threshold sched2 lg
  ∧ (all_promptable speakers →
     recommend_speakers json_loads chat_create user_bio speakers threshold
       sched1 lg
     = (match ranking threshold batch with
        | Ok ranked => Returned (map snd ranked)
        | Err e => Raised e
        end, lg'))
  ∧ ranking_of_scores threshold (map Scored.score batch)
    = result_map (map (λ p, (p.1, Scored.score p.2))) (ranking threshold batch)
  ∧ (all_promptable speakers →
     ∀ k e ranked,
       ranking threshold batch = Ok ranked →
       ∃ ranked',
         ranking threshold
           (scored_batch json_loads (fail_at chat_create (length lg + k) e)
              user_bio (length lg) speakers) = Ok ranked'
         ∧ recommend_speakers json_loads
             (fail_at chat_create (length lg + k) e)
             user_bio speakers threshold sched2 lg
           = (Returned (map snd ranked'), lg')
         ∧ without k ranked' = without k ranked).
Proof.
  intros H1 H2 batch lg'.
  split.
  { destruct (prompt_failure_cases user_bio speakers) as [Hall|[e He]].
    - now rewrite !recommend_speakers_ranks by assumption.
    - now rewrite !(recommend_speakers_unpromptable _ _ _ _ _ _ _ e He). }
  split.
  { intros Hall. rewrite recommend_speakers_ranks by assumption.
    fold batch lg'. rewrite rank_of_ranking.
    now destruct (ranking threshold batch). }
  split; [apply ranking_scores|].
  intros Hall k e ranked Hr.
  assert (Hnum : Forall (number Scored.score) batch).
  { unfold ranking, rank in Hr.
    destruct (keep_above _ threshold (indexed batch)) as [kept|e'] eqn:Hk;
      [|discriminate].
    exact (indexed_from_number 0 _ (keep_above_Ok _ _ _ _ Hk)). }
  destruct (ranking_frame threshold k batch
              (scored_batch json_loads (fail_at chat_create (length lg + k) e)
                 user_bio (length lg) speakers) ranked)
    as (ranked' & Hr' & Hw).
  - unfold batch. now rewrite !scored_batch_length.
  - intros i Hi. apply scored_batch_fail_at. lia.
  - now apply scored_batch_fail_at_number.
  - exact Hr.
  - exists ranked'. split; [exact Hr'|]. split; [|exact Hw].
    rewrite recommend_speakers_ranks by assumption.
    rewrite rank_of_ranking, Hr'. reflexivity.
Qed.

Lemma completion_order_independent_witness :
  recommend_speakers Example.json_loads Example.chat_create Example.query
    Example.catalog (Example.float_of_Z 0) [0; 1; 2] []
  = recommend_speakers Example.json_loads Example.chat_create Example.query
      Example.catalog (Example.float_of_Z 0) [2; 0; 1] [].
Proof.
  destruct (completion_order_independent Example.json_loads
              Example.chat_create Example.query Example.catalog
              (Example.float_of_Z 0) [0; 1; 2] [2; 0; 1] []) as [H _];
    [| |exact H];
    intros i Hi; simpl in Hi;
    (destruct i as [|[|[|i]]]; [repeat constructor..|lia]).
Defined.

(** ** The endpoint *)

Lemma long_truthy s : 10 ≤ String.length (Str.strip s) → truthy s = true.
Proof. destruct s; simpl; [lia|reflexivity]. Qed.

Section BackendFacts.

Context {python : Python}.
Variable json_loads : string → result json.
Variable chat_create : provider.
Variable api_key : option string.
Variable model_validate : Scored.t → result SpeakerMatch.t.

Lemma match_speakers_empty request sched lg :
  match_speakers json_loads chat_create api_key model_validate [] request
    sched lg
  = (Raised (mk_exn (HTTPException 500) "Speaker data not loaded"), lg).
Proof. reflexivity. Qed.

Lemma match_speakers_short speakers_data request sched lg :
  speakers_data ≠ [] →
  String.length (Str.strip (user_bio request)) < 10 →
  match_speakers json_loads chat_create api_key model_validate
    speakers_data request sched lg
  = (Raised (mk_exn (HTTPException 400)
               "User bio must be at least 10 characters"), lg).
Proof.
  intros Hne Hlen. destruct speakers_data as [|sp sps]; [congruence|].
  unfold match_speakers.
  apply Nat.ltb_lt in Hlen. rewrite Hlen, orb_true_r. reflexivity.
Qed.

(** Past the two guards, what the endpoint does. *)
Lemma match_speakers_scoring speakers_data request sched lg :
  speakers_data ≠ [] →
  10 ≤ String.length (Str.strip (user_bio request)) →
  match_speakers json_loads chat_create api_key model_validate
    speakers_data request sched lg
  = match SpeakerMatcher_init api_key with
    | Err e => (Raised (error_matching e), lg)
    | Ok _ =>
        match recommend_speakers json_loads chat_create (user_bio request)
                speakers_data (threshold request) sched lg with
        | (Returned matches, lg') =>
            match validate_all model_validate matches with
            | Ok validated =>
                (Returned {| matches := validated;
                             total_speakers := length speakers_data;
                             matches_found := length matches |}, lg')
            | Err e => (Raised (error_matching e), lg')
            end
        | (Raised e, lg') => (Raised (error_matching e), lg')
        | (Hung, lg') => (Hung, lg')
        end
    end.
Proof.
  intros Hne Hlen. destruct speakers_data as [|sp sps]; [congruence|].
  unfold match_speakers.
  rewrite (long_truthy _ Hlen). simpl negb. rewrite orb_false_l.
  apply Nat.ltb_ge in Hlen. now rewrite Hlen.
Qed.

Lemma match_speakers_not_400 speakers_data request sched lg detail :
  speakers_data ≠ [] →
  10 ≤ String.length (Str.strip (user_bio request)) →
  (match_speakers json_loads chat_create api_key model_validate
     speakers_data request sched lg).1
  ≠ Raised (mk_exn (HTTPException 400) detail).
Proof.
  intros Hne Hlen. rewrite match_speakers_scoring by assumption.
  destruct (SpeakerMatcher_init api_key); [|discriminate].
  destruct (recommend_speakers _ _ _ _ _ _ _) as [[ms|e|] lg'];
    try discriminate.
  destruct (validate_all model_validate ms); discriminate.
Qed.

End BackendFacts.

(** C7, as stated, fails: a request whose threshold is 11 is not rejected;
    the three speakers are scored and an (empty) result is returned. *)
Lemma threshold_out_of_range_accepted :
  ¬ (∀ (python : Python) json_loads chat_create api_key model_validate
       speakers_data request sched lg,
       user_bio request = EmptyString
       ∨ float_ge (threshold request) (Example.float_of_Z 0) = false
       ∨ float_ge (Example.float_of_Z 10) (threshold request) = false →
       ∃ detail,
         match_speakers json_loads chat_create api_key model_validate
           speakers_data request sched lg
         = (Raised (mk_exn (HTTPException 400) detail), lg)).
Proof.
  intros H.
  destruct (H Example.python Example.json_loads Example.chat_create
              Example.api_key Example.model_validate Example.catalog
              {| user_bio := Example.query;
                 threshold := Example.float_of_Z 11 |}
              [0; 1; 2] [] (or_intror (or_intror eq_refl))) as [detail Hd].
  vm_compute in Hd. discriminate Hd.
Qed.

(** C7, amended.  With a non-empty catalog, the endpoint rejects with HTTP
    400, before any request is sent to the provider, every query whose text
    has fewer than 10 characters once stripped (an empty query among them),
    whatever the threshold; a query of at least 10 characters is never
    rejected with HTTP 400, whatever the threshold.  With an empty catalog
    the endpoint fails with HTTP 500 whatever the query. *)
Theorem short_query_rejected {python : Python}
    (json_loads : string → result json) (chat_create : provider)
    (api_key : option string)
    (model_validate : Scored.t → result SpeakerMatch.t)
    (speakers_data : list Speaker.t) (request : MatchRequest)
    (sched : list nat) (lg : log) :
  match_speakers json_loads chat_create api_key model_validate [] request
    sched lg
  = (Raised (mk_exn (HTTPException 500) "Speaker data not loaded"), lg)
  ∧ (speakers_data ≠ [] →
     (String.length (Str.strip (user_bio request)) < 10 →
      match_speakers json_loads chat_create api_key model_validate
        speakers_data request sched lg
      = (Raised (mk_exn (HTTPException 400)
                   "User bio must be at least 10 characters"), lg))
     ∧ (10 ≤ String.length (Str.strip (user_bio request)) →
        ∀ detail,
          (match_speakers json_loads chat_create api_key model_validate
             speakers_data request sched lg).1
          ≠ Raised (mk_exn (HTTPException 400) detail))).
Proof.
  split; [reflexivity|]. intros Hne. split.
  - now apply match_speakers_short.
  - intros Hlen detail. now apply match_speakers_not_400.
Qed.

Lemma short_query_rejected_witness :
  match_speakers Example.json_loads Example.chat_create Example.api_key
    Example.model_validate Example.catalog
    {| user_bio := "   drones      "; threshold := Example.float_of_Z 6 |}
    [0; 1; 2] []
  = (Raised (mk_exn (HTTPException 400)
               "User bio must be at least 10 characters"), []).
Proof.
  destruct (short_query_rejected Example.json_loads Example.chat_create
              Example.api_key Example.model_validate Example.catalog
              {| user_bio := "   drones      ";
                 threshold := Example.float_of_Z 6 |} [0; 1; 2] [])
    as [_ H].
  destruct H as [H _]; [discriminate|].
  apply H. vm_compute. lia.
Defined.

(** C8, as stated, fails: with one speaker in the catalog and a reply whose
    score is the text [high], the request fails as a whole with HTTP 500
    after the scoring request has been sent. *)
Lemma item_reply_fails_request :
  ¬ (∀ (python : Python) json_loads chat_create api_key model_validate
       speakers_data request sched lg,
       speakers_data ≠ [] →
       (∀ i, i < length speakers_data → i ∈ sched) →
       (∃ response,
          (match_speakers json_loads chat_create api_key model_validate
             speakers_data request sched lg).1 = Returned response)
       ∨ (match_speakers json_loads chat_create api_key model_validate
            speakers_data request sched lg).2 = lg).
Proof.
  intros H.
  destruct (H Example.python Example.json_loads Example.wordy_create
              Example.api_key Example.model_validate [Example.ann]
              {| user_bio := Example.query;
                 threshold := Example.float_of_Z 6 |} [0] [])
    as [[response Hr]|Hlog].
  - discriminate.
  - intros i Hi. simpl in Hi. destruct i; [repeat constructor|lia].
  - vm_compute in Hr. discriminate Hr.
  - vm_compute in Hlog. discriminate Hlog.
Qed.

(** C8, amended.  With an empty catalog the endpoint fails with HTTP 500
    [Speaker data not loaded] and sends nothing to the provider.  With a
    non-empty catalog, a query of at least 10 characters and an API key,
    once a call has been made for every speaker (the prompt of each can be
    built) and every call completes: an item whose call or parse failed is
    a number-scored (zero) match, and whenever every score in the batch is
    a number, ranking succeeds on all N items and, if the ranked matches
    validate, the endpoint returns them with the catalog size, N requests
    having been sent. *)
Theorem item_failures_contained {python : Python}
    (json_loads : string → result json) (chat_create : provider)
    (api_key : option string)
    (model_validate : Scored.t → result SpeakerMatch.t)
    (speakers_data : list Speaker.t) (request : MatchRequest)
    (sched : list nat) (lg : log) :
  match_speakers json_loads chat_create api_key model_validate [] request
    sched lg
  = (Raised (mk_exn (HTTPException 500) "Speaker data not loaded"), lg)
  ∧ (∀ speaker r e,
       step_fails json_loads r e →
       Scored.score (item_result json_loads speaker r) = JInt 0)
  ∧ (speakers_data ≠ [] →
     10 ≤ String.length (Str.strip (user_bio request)) →
     SpeakerMatcher_init api_key = Ok () →
     all_promptable speakers_data →
     (∀ i, i < length speakers_data → i ∈ sched) →
     let batch := scored_batch json_loads chat_create (user_bio request)
                    (length lg) speakers_data in
     Forall (number Scored.score) batch →
     ∃ ranked,
       rank Scored.score (threshold request) batch = Ok ranked
       ∧ Permutation ranked
           (List.filter (passes Scored.score (threshold request)) batch)
       ∧ ∀ validated,
           validate_all model_validate ranked = Ok validated →
           match_speakers json_loads chat_create api_key model_validate
             speakers_data request sched lg
           = (Returned {| matches := validated;
                          total_speakers := length speakers_data;
                          matches_found := length ranked |},
              lg ++ map (scoring_request (user_bio request)) speakers_data)).
Proof.
  split; [reflexivity|]. split.
  { intros speaker r e He. unfold item_result.
    now rewrite (parsed_reply_fails _ _ _ He). }
  intros Hne Hlen Hkey Hall Hcov batch Hnum.
  eexists. split; [now apply rank_numbers|].
  split; [apply sort_by_score_perm|].
  intros validated Hv.
  rewrite match_speakers_scoring by assumption. rewrite Hkey.
  rewrite recommend_speakers_ranks by assumption. fold batch.
  rewrite (rank_numbers _ _ _ Hnum). now rewrite Hv.
Qed.

Lemma item_failures_contained_witness :
  match_speakers Example.json_loads Example.chat_create Example.api_key
    Example.model_validate Example.catalog
    {| user_bio := Example.query; threshold := Example.float_of_Z 0 |}
    [1; 2; 0] []
  = (Returned
       {| matches :=
            [SpeakerMatch.make "Ann Lee" "Program Manager"
               "Army Futures Command" "Leads counter-drone procurement."
               (Example.float_of_Z 9) "Direct buyer.";
             SpeakerMatch.make "Cy Tran" "Chief Engineer" "Base Defense Lab"
               "Tests radar and jamming systems."
               (Example.float_of_Z 7) "Relevant tester.";
             SpeakerMatch.make "Bob Ortiz" "Historian" "War College"
               "Writes on nineteenth-century logistics."
               (Example.float_of_Z 0)
               "Error: Error generating text: Connection error."];
          total_speakers := 3;
          matches_found := 3 |},
     Example.requests).
Proof.
  destruct (item_failures_contained Example.json_loads Example.chat_create
              Example.api_key Example.model_validate Example.catalog
              {| user_bio := Example.query;
                 threshold := Example.float_of_Z 0 |} [1; 2; 0] [])
    as (_ & _ & H).
  destruct H as (ranked & Hr & _ & Hv).
  - discriminate.
  - vm_compute. lia.
  - reflexivity.
  - repeat constructor.
  - intros i Hi. simpl in Hi.
    destruct i as [|[|[|i]]]; [repeat constructor..|lia].
  - repeat (constructor; [eexists; reflexivity|]). constructor.
  - vm_compute in Hr. injection Hr as <-.
    exact (Hv _ eq_refl).
Defined.

(** ** Text: [find], [in] and [split] *)

Section TextFacts.

Variable sep : string.
Hypothesis sep_nonempty : sep ≠ EmptyString.

Lemma startswith_empty : Str.startswith sep EmptyString = false.
Proof. destruct sep; [congruence|reflexivity]. Qed.

Lemma contains_find s :
  Str.contains sep s = true ↔ is_Some (Str.find sep s).
Proof.
  induction s as [|c s IH]; simpl.
  - rewrite startswith_empty. simpl. split; [discriminate|].
    intros [x Hx]; discriminate.
  - destruct (Str.startswith sep (String c s)); simpl; [now split; eauto|].
    rewrite IH. destruct (Str.find sep s); simpl; split; eauto;
      intros [x Hx]; discriminate.
Qed.

Lemma split_from_skip k s :
  Str.split_from sep k s = Str.split_from sep 0 (Str.slice_from k s).
Proof.
  revert s; induction k as [|k IH]; intros s.
  - now destruct s.
  - destruct s as [|c s]; [reflexivity|]. simpl Str.slice_from.
    rewrite <- IH. reflexivity.
Qed.

(** [split] cuts at the first occurrence and goes on after it. *)
Lemma split_first s :
  Str.split sep s
  = text_before sep s
    :: match text_after sep s with
       | Some rest => Str.split sep rest
       | None => []
       end.
Proof.
  unfold Str.split, text_before, text_after.
  induction s as [|c s IH].
  - simpl. now rewrite startswith_empty.
  - cbn [Str.split_from Str.find].
    destruct (Str.startswith sep (String c s)) eqn:Hp.
    + rewrite split_from_skip. simpl.
      destruct sep as [|a sep']; [congruence|]. simpl.
      now rewrite Nat.sub_0_r.
    + rewrite IH. destruct (Str.find sep s) as [i|]; reflexivity.
Qed.

Lemma startswith_slice_to n s :
  Str.startswith sep (Str.slice_to n s) = true → Str.startswith sep s = true.
Proof.
  revert n s. induction sep as [|a p IH]; intros n s; [reflexivity|].
  destruct n as [|n], s as [|b s]; simpl; try discriminate.
  destruct (Ascii.eqb a b); [|discriminate].
  destruct p as [|a' p']; [reflexivity|].
  apply IH. discriminate.
Qed.

Lemma find_empty : Str.find sep EmptyString = None.
Proof. simpl. now rewrite startswith_empty. Qed.

(** Nothing before the first occurrence holds an occurrence. *)
Lemma find_before s : Str.find sep (text_before sep s) = None.
Proof.
  unfold text_before. induction s as [|c s IH].
  - now rewrite !find_empty.
  - cbn [Str.find]. destruct (Str.startswith sep (String c s)) eqn:Hp.
    + apply find_empty.
    + destruct (Str.find sep s) as [i|] eqn:Hf.
      * cbn [fmap option_fmap option_map Str.slice_to Str.find].
        destruct (Str.startswith sep (String c (Str.slice_to i s))) eqn:Hq.
        -- apply (startswith_slice_to (S i) (String c s)) in Hq. congruence.
        -- now rewrite IH.
      * cbn [fmap option_fmap option_map Str.find].
        now rewrite Hp, IH.
Qed.

Lemma text_before_idem s :
  text_before sep (text_before sep s) = text_before sep s.
Proof. unfold text_before at 1. now rewrite find_before. Qed.

End TextFacts.

(** ** JSON extraction *)

Lemma item_second (a b : string) l : Anthropic.item 1 (a :: b :: l) = Ok b.
Proof. reflexivity. Qed.

Lemma item_first (a : string) l : Anthropic.item 0 (a :: l) = Ok a.
Proof. reflexivity. Qed.

Lemma fence_nonempty : Anthropic.fence ≠ EmptyString.
Proof. discriminate. Qed.

Lemma json_fence_nonempty : Anthropic.json_fence ≠ EmptyString.
Proof. discriminate. Qed.

(** After a first occurrence of [sep], the second piece of the split. *)
Lemma split_second sep s rest :
  sep ≠ EmptyString → text_after sep s = Some rest →
  Anthropic.item 1 (Str.split sep s) = Ok (text_before sep rest).
Proof.
  intros Hsep Hrest. rewrite (split_first sep Hsep s), Hrest.
  rewrite (split_first sep Hsep rest). apply item_second.
Qed.

Lemma split_head sep s :
  sep ≠ EmptyString →
  Anthropic.item 0 (Str.split sep s) = Ok (text_before sep s).
Proof. intros Hsep. rewrite (split_first sep Hsep s). apply item_first. Qed.

Lemma contains_text_after sep s :
  sep ≠ EmptyString →
  Str.contains sep s = match text_after sep s with
                       | Some _ => true
                       | None => false
                       end.
Proof.
  intros Hsep. pose proof (contains_find sep Hsep s) as H.
  unfold text_after. destruct (Str.find sep s) as [i|].
  - apply H. eauto.
  - destruct (Str.contains sep s); [|reflexivity].
    destruct H as [H _]. destruct (H eq_refl) as [x Hx]. discriminate.
Qed.

Lemma unfence_three_tier text : Anthropic.unfence text = Ok (three_tier text).
Proof.
  unfold Anthropic.unfence, three_tier.
  rewrite (contains_text_after _ text json_fence_nonempty).
  destruct (text_after Anthropic.json_fence text) as [rest|] eqn:Hj.
  - rewrite (split_second _ _ _ json_fence_nonempty Hj). simpl.
    now rewrite (split_head _ _ fence_nonempty).
  - rewrite (contains_text_after _ text fence_nonempty).
    destruct (text_after Anthropic.fence text) as [rest|] eqn:Hf;
      [|reflexivity].
    rewrite (split_second _ _ _ fence_nonempty Hf). simpl.
    rewrite (split_head _ _ fence_nonempty). simpl.
    now rewrite (text_before_idem _ fence_nonempty).
Qed.

Lemma run_extract_structured_data json_loads chat_create content schema_str
    instructions lg text :
  chat_create (length lg)
    [("user", Anthropic.prompt content schema_str instructions)]
  = Ok (Some text) →
  run chat_create
    (Anthropic.extract_structured_data json_loads content schema_str
       instructions) lg
  = (match json_loads (three_tier text) with
     | Ok v => Ok v
     | Err e => Err (extraction_error e)
     end,
     lg ++ [[("user", Anthropic.prompt content schema_str instructions)]]).
Proof.
  intros Hr. unfold Anthropic.extract_structured_data. simpl. rewrite Hr.
  simpl. rewrite unfence_three_tier. simpl.
  now destruct (json_loads (three_tier text)).
Qed.

(** C6, as stated, fails on the scoring path: a reply that wraps a valid
    object in a fenced block tagged as JSON is not recovered by
    [score_speaker] (the three-tier extraction of the reply parses, yet the
    match is the error fallback). *)
Lemma fenced_reply_not_recovered :
  ¬ (∀ (python : Python) json_loads chat_create user_bio speaker lg text d,
       chat_create (length lg) (scoring_request user_bio speaker)
       = Ok (Some text) →
       json_loads (three_tier text) = Ok (JDict d) →
       run chat_create (score_speaker json_loads user_bio speaker) lg
       = (Ok (scored_from speaker d),
          lg ++ [scoring_request user_bio speaker])).
Proof.
  intros H.
  specialize (H Example.python Example.json_loads Example.fencing_create
                Example.query Example.ann [] Example.fenced_reply
                (<["reasoning" := JStr "Direct buyer."]> {["score" := JInt 9]})
                eq_refl eq_refl).
  apply (f_equal (λ p, match p.1 with
                       | Ok m => Scored.score m
                       | Err _ => JNull
                       end)) in H.
  vm_compute in H. discriminate H.
Qed.

(** C6, amended.  The three-tier extraction is a step of
    [AnthropicClient.extract_structured_data], not of the scoring path: the
    text that method hands to [json.loads] is the inside of the first block
    fenced with the JSON tag, else the inside of the first fenced block,
    else the reply as it is, and it fails, with a chained exception,
    exactly when [json.loads] fails on that text.  [score_speaker] hands
    the stripped reply to [json.loads] as it is, and a reply that does not
    parse, or does not parse to an object, yields the error fallback. *)
Theorem json_extraction_paths {python : Python}
    (json_loads : string → result json) (chat_create : provider)
    (lg : log) (text : string) :
  Anthropic.unfence text = Ok (three_tier text)
  ∧ (∀ content schema_str instructions,
       chat_create (length lg)
         [("user", Anthropic.prompt content schema_str instructions)]
       = Ok (Some text) →
       run chat_create
         (Anthropic.extract_structured_data json_loads content schema_str
            instructions) lg
       = (match json_loads (three_tier text) with
          | Ok v => Ok v
          | Err e => Err (extraction_error e)
          end,
          lg ++ [[("user", Anthropic.prompt content schema_str instructions)]]))
  ∧ (∀ user_bio speaker,
       promptable speaker = true →
       chat_create (length lg) (scoring_request user_bio speaker)
       = Ok (Some text) →
       run chat_create (score_speaker json_loads user_bio speaker) lg
       = (Ok match json_loads (Str.strip text) with
             | Ok (JDict d) => scored_from speaker d
             | Ok v =>
                 fallback speaker
                   (mk_exn AttributeError
                      ("'" +:+ type_name v
                       +:+ "' object has no attribute 'get'"))
             | Err e => fallback speaker e
             end,
          lg ++ [scoring_request user_bio speaker])).
Proof.
  split; [apply unfence_three_tier|]. split.
  - intros content schema_str instructions.
    apply run_extract_structured_data.
  - intros user_bio speaker Hp Hr. rewrite run_score_speaker, Hr by exact Hp.
    do 2 f_equal. unfold item_result, parsed_reply. simpl.
    destruct (json_loads (Str.strip text)) as [v|e]; simpl; [|reflexivity].
    destruct v; reflexivity.
Qed.

Lemma json_extraction_paths_witness :
  run Example.fencing_create
    (score_speaker Example.json_loads Example.query Example.ann) []
  = (Ok (fallback Example.ann
           (mk_exn JSONDecodeError
              "Expecting value: line 1 column 1 (char 0)")),
     [scoring_request Example.query Example.ann])
  ∧ Example.json_loads (three_tier Example.fenced_reply)
    = Ok (Example.object (JInt 9) "Direct buyer.").
Proof.
  destruct (json_extraction_paths Example.json_loads Example.fencing_create
              [] Example.fenced_reply) as (_ & _ & H).
  split; [exact (H Example.query Example.ann eq_refl eq_refl)|reflexivity].
Defined.

(** ** The store *)

Section HeapFacts.

Import Heap.

Lemma alloc_fresh o (h : gmap loc obj) l h' :
  alloc o h = (l, h') → h !! l = None ∧ h' = <[l := o]> h.
Proof.
  unfold alloc. cbv zeta. intros [= <- <-]. split; [|reflexivity].
  apply not_elem_of_dom, is_fresh.
Qed.

Lemma alloc_grows o (h : gmap loc obj) l h' : alloc o h = (l, h') → h ⊆ h'.
Proof.
  intros [Hl ->]%alloc_fresh. now apply insert_subseteq.
Qed.

Lemma alloc_all_grows os : ∀ (h : gmap loc obj) ls h',
  alloc_all os h = (ls, h') → h ⊆ h'.
Proof.
  induction os as [|o os IH]; intros h ls h'; cbn [alloc_all].
  - now intros [= _ <-].
  - destruct (alloc o h) as [l h1] eqn:Ha.
    destruct (alloc_all os h1) as [ls' h2] eqn:Hb.
    intros [= _ <-]. etrans; [exact (alloc_grows _ _ _ _ Ha)|].
    exact (IH _ _ _ Hb).
Qed.

Lemma alloc_all_holds os : ∀ (h : gmap loc obj) ls h',
  alloc_all os h = (ls, h') → Forall2 (λ l o, h' !! l = Some o) ls os.
Proof.
  induction os as [|o os IH]; intros h ls h'; cbn [alloc_all].
  - intros [= <- _]. constructor.
  - destruct (alloc o h) as [l h1] eqn:Ha.
    destruct (alloc_all os h1) as [ls' h2] eqn:Hb.
    intros [= <- <-]. constructor; [|exact (IH _ _ _ Hb)].
    apply alloc_fresh in Ha as [_ ->].
    eapply lookup_weaken; [apply lookup_insert_eq|].
    exact (alloc_all_grows _ _ _ _ Hb).
Qed.

Context {python : Python}.
Variable json_loads : string → result json.
Variable chat_create : provider.

(** Every object of the initial store is in the final store unchanged. *)
Lemma recommend_speakers_grows user_bio speakers threshold sched lg
    (h : gmap loc obj) :
  h ⊆ (Heap.recommend_speakers json_loads chat_create user_bio speakers
         threshold sched lg h).2.
Proof.
  unfold Heap.recommend_speakers.
  destruct (catalog_at h speakers) as [records|e]; [|reflexivity].
  destruct (gather _ _ _ _) as [[scored|e|] lg']; try reflexivity.
  destruct (alloc_all (map ScoredDict scored) h) as [dicts h1] eqn:H1.
  destruct (alloc (ListOf dicts) h1) as [l2 h2] eqn:H2.
  assert (Hh2 : h ⊆ h2).
  { etrans; [exact (alloc_all_grows _ _ _ _ H1)|].
    exact (alloc_grows _ _ _ _ H2). }
  destruct (keep_above (score_at h2) threshold dicts) as [kept|e];
    [|exact Hh2].
  destruct (alloc (ListOf kept) h2) as [l3 h3] eqn:H3. simpl.
  apply alloc_fresh in H3 as [Hnone ->].
  rewrite insert_insert_eq. etrans; [exact Hh2|].
  now apply insert_subseteq.
Qed.

End HeapFacts.

(** C10 (speaker fields and the catalog).  Every match [score_speaker]
    returns is the match of the [try] branch or the match of the [except]
    branch, and in both it carries the speaker's name, title, organization
    and whole biography as [speaker.get] gives them: the cut to 800
    characters is in the prompt only.  Run on a store,
    [recommend_speakers] leaves every object that was in the store (the
    catalog list and its entries among them) as it was. *)
Theorem speaker_fields_preserved {python : Python}
    (json_loads : string → result json) (chat_create : provider)
    (user_bio : string) (speaker : Speaker.t) (lg : log)
    (speakers : Heap.loc) (threshold : pyfloat) (sched : list nat)
    (h : gmap Heap.loc Heap.obj) :
  (∀ m lg',
     run chat_create (score_speaker json_loads user_bio speaker) lg
     = (Ok m, lg') →
     ((∃ d, m = scored_from speaker d) ∨ (∃ e, m = fallback speaker e))
     ∧ Scored.name m = Speaker.field "name" speaker
     ∧ Scored.title m = Speaker.field "title" speaker
     ∧ Scored.organization m = Speaker.field "organization" speaker
     ∧ Scored.bio m = Speaker.field "bio" speaker)
  ∧ (∀ l o,
       h !! l = Some o →
       (Heap.recommend_speakers json_loads chat_create user_bio speakers
          threshold sched lg h).2 !! l = Some o).
Proof.
  split.
  - intros m lg' Hrun. destruct (promptable speaker) eqn:Hp.
    + rewrite run_score_speaker in Hrun by exact Hp.
      injection Hrun as <- _. unfold item_result.
      destruct (parsed_reply _ _) as [d|e]; (split; [eauto|]);
        repeat split; reflexivity.
    + destruct (build_unpromptable user_bio speaker Hp) as [e Hb].
      rewrite (score_speaker_raises json_loads _ _ _ Hb) in Hrun.
      discriminate Hrun.
  - intros l o Hl. eapply lookup_weaken; [exact Hl|].
    apply recommend_speakers_grows.
Qed.

Lemma speaker_fields_preserved_witness :
  Scored.bio Example.scored_ann = Speaker.field "bio" Example.ann
  ∧ (Heap.recommend_speakers Example.json_loads Example.chat_create
       Example.query 3 (Example.float_of_Z 0) [1; 2; 0] [] Example.store).2
    !! 3 = Some (Heap.ListOf [0; 1; 2]).
Proof.
  destruct (speaker_fields_preserved Example.json_loads Example.chat_create
              Example.query Example.ann [] 3 (Example.float_of_Z 0)
              [1; 2; 0] Example.store) as [Hf H].
  split; [|exact (H 3 (Heap.ListOf [0; 1; 2]) eq_refl)].
  destruct (Hf Example.scored_ann
              [scoring_request Example.query Example.ann])
    as (_ & _ & _ & _ & Hb); [|exact Hb].
  vm_compute. reflexivity.
Defined.

(** ** The store model against the value model *)

Section Related.

Context {A B : Type} (R : A → B → Prop) (sa : A → json) (sb : B → json).
Hypothesis same_scores : ∀ a b, R a b → sa a = sb b.

Lemma keep_above_related threshold la lb :
  Forall2 R la lb →
  match keep_above sa threshold la, keep_above sb threshold lb with
  | Ok ka, Ok kb => Forall2 R ka kb
  | Err e, Err e' => e = e'
  | _, _ => False
  end.
Proof.
  induction 1 as [|a b la lb Hab _ IH]; simpl; [constructor|].
  rewrite (same_scores a b Hab).
  destruct (py_ge (sb b) threshold) as [keep|e]; simpl; [|reflexivity].
  destruct (keep_above sa threshold la) as [ka|ea],
           (keep_above sb threshold lb) as [kb|eb]; simpl; try tauto.
  destruct keep; [now constructor|assumption].
Qed.

Lemma insert_sorted_related a b la lb :
  R a b → Forall2 R la lb →
  Forall2 R (insert_sorted (λ x y, key_lt (sa x) (sa y)) a la)
            (insert_sorted (λ x y, key_lt (sb x) (sb y)) b lb).
Proof.
  intros Hab; induction 1 as [|a' b' la lb Hab' Hl IH]; simpl.
  - repeat constructor. exact Hab.
  - rewrite (same_scores a b Hab), (same_scores a' b' Hab').
    destruct (key_lt (sb b') (sb b)); repeat constructor; assumption.
Qed.

Lemma stable_sort_related la lb :
  Forall2 R la lb →
  Forall2 R (stable_sort (λ x y, key_lt (sa x) (sa y)) la)
            (stable_sort (λ x y, key_lt (sb x) (sb y)) lb).
Proof.
  induction 1; simpl; [constructor|]. now apply insert_sorted_related.
Qed.

Lemma Forall2_rev la lb : Forall2 R la lb → Forall2 R (rev la) (rev lb).
Proof.
  induction 1; simpl; [constructor|].
  apply Forall2_app; [assumption|]. now repeat constructor.
Qed.

Lemma sort_by_score_related la lb :
  Forall2 R la lb →
  Forall2 R (sort_by_score sa la) (sort_by_score sb lb).
Proof.
  intros H. unfold sort_by_score, list_sort.
  now apply Forall2_rev, stable_sort_related, Forall2_rev.
Qed.

End Related.

Section Refinement.

Context {python : Python}.
Variable json_loads : string → result json.
Variable chat_create : provider.

Lemma holds_score h l scored :
  holds h l scored → Heap.score_at h l = Scored.score scored.
Proof. unfold holds, Heap.score_at. now intros ->. Qed.

Lemma holds_weaken (h h' : gmap Heap.loc Heap.obj) ls ms :
  h ⊆ h' → Forall2 (holds h) ls ms → Forall2 (holds h') ls ms.
Proof.
  intros Hsub H. eapply Forall2_impl; [exact H|].
  intros l m Hl. exact (lookup_weaken _ _ _ _ Hl Hsub).
Qed.

Lemma matches_at_holds (h : gmap Heap.loc Heap.obj) l refs ms :
  h !! l = Some (Heap.ListOf refs) → Forall2 (holds h) refs ms →
  Heap.matches_at h l = Some ms.
Proof.
  intros Hl H. unfold Heap.matches_at. rewrite Hl. apply mapM_Some.
  eapply Forall2_impl; [exact H|]. intros r m Hr. now rewrite Hr.
Qed.

(** On a store that holds a catalog, the store model returns a list
    object whose dicts are the matches of the value model, after the same
    requests; it raises and hangs when the value model does. *)
Lemma recommend_speakers_refines user_bio speakers threshold sched lg
    (h : gmap Heap.loc Heap.obj) records :
  Heap.catalog_at h speakers = Ok records →
  match Heap.recommend_speakers json_loads chat_create user_bio speakers
          threshold sched lg h,
        recommend_speakers json_loads chat_create user_bio records
          threshold sched lg with
  | (Returned l, lg1, h'), (Returned ms, lg2) =>
      lg1 = lg2 ∧ Heap.matches_at h' l = Some ms
  | (Raised e1, lg1, _), (Raised e2, lg2) => lg1 = lg2 ∧ e1 = e2
  | (Hung, lg1, _), (Hung, lg2) => lg1 = lg2
  | _, _ => False
  end.
Proof.
  intros Hc. unfold Heap.recommend_speakers, recommend_speakers. rewrite Hc.
  destruct (gather _ _ _ _) as [[scored|e|] lg']; try tauto.
  destruct (Heap.alloc_all (map Heap.ScoredDict scored) h) as [dicts h1] eqn:H1.
  destruct (Heap.alloc (Heap.ListOf dicts) h1) as [l2 h2] eqn:H2.
  assert (Hd : Forall2 (holds h2) dicts scored).
  { apply (holds_weaken h1); [exact (alloc_grows _ _ _ _ H2)|].
    apply alloc_all_holds in H1. apply Forall2_fmap_r in H1. exact H1. }
  unfold rank.
  pose proof (keep_above_related (holds h2) (Heap.score_at h2) Scored.score
                (holds_score h2) threshold dicts scored Hd) as Hk.
  destruct (keep_above (Heap.score_at h2) threshold dicts) as [kept|e1],
           (keep_above Scored.score threshold scored) as [kept'|e2];
    simpl; try tauto.
  split; [reflexivity|].
  assert (Hnone : h2 !! fresh (dom h2) = None)
    by apply not_elem_of_dom, is_fresh.
  pose proof (insert_subseteq h2 _ (Heap.ListOf kept) Hnone) as Hsub.
  rewrite insert_insert_eq.
  eapply matches_at_holds; [apply lookup_insert_eq|].
  apply (holds_weaken h2); [now apply insert_subseteq|].
  apply (sort_by_score_related (holds h2)); [|exact Hk].
  intros l m Hl. apply holds_score.
  exact (lookup_weaken _ _ _ _ Hl Hsub).
Qed.

End Refinement.

(** * Further properties of the code *)

(** ** Stripped text *)

Lemma rstrip_cons c s :
  Str.rstrip (String c s)
  = match Str.rstrip s with
    | EmptyString =>
        if Str.isspace c then EmptyString else String c EmptyString
    | r => String c r
    end.
Proof. reflexivity. Qed.

Lemma rstrip_idem s : Str.rstrip (Str.rstrip s) = Str.rstrip s.
Proof.
  induction s as [|c s IH]; [reflexivity|].
  rewrite rstrip_cons. destruct (Str.rstrip s) as [|c' r] eqn:Hr.
  - destruct (Str.isspace c) eqn:Hc; [reflexivity|].
    rewrite rstrip_cons. simpl. now rewrite Hc.
  - rewrite rstrip_cons, IH. reflexivity.
Qed.

Lemma lstrip_rstrip_lstrip s :
  Str.lstrip (Str.rstrip (Str.lstrip s)) = Str.rstrip (Str.lstrip s).
Proof.
  induction s as [|c s IH]; [reflexivity|].
  cbn [Str.lstrip]. destruct (Str.isspace c) eqn:Hc; [exact IH|].
  rewrite rstrip_cons.
  destruct (Str.rstrip s); rewrite ?Hc; cbn [Str.lstrip]; now rewrite Hc.
Qed.

Lemma strip_idem s : Str.strip (Str.strip s) = Str.strip s.
Proof.
  unfold Str.strip. now rewrite lstrip_rstrip_lstrip, rstrip_idem.
Qed.

Lemma run_generate_text chat_create prompt system_prompt lg :
  run chat_create (generate_text prompt system_prompt) lg
  = (generated
       (chat_create (length lg) (generation_messages prompt system_prompt)),
     lg ++ [generation_messages prompt system_prompt]).
Proof.
  unfold generate_text, generation_messages. simpl.
  destruct (chat_create _ _) as [[text|]|e]; reflexivity.
Qed.

(** X1.  [generate_text] sends one request: the user prompt, preceded by a
    system message exactly when a non-empty system prompt is given.  What
    it returns is stripped (stripping it again changes nothing), and
    whatever goes wrong leaves as an [Exception] whose text starts with
    [Error generating text: ]. *)
Theorem generate_text_contract (chat_create : provider)
    (prompt : string) (system_prompt : option string) (lg : log) :
  ∃ out,
    run chat_create (generate_text prompt system_prompt) lg
    = (out, lg ++ [generation_messages prompt system_prompt])
    ∧ last (generation_messages prompt system_prompt) = Some ("user", prompt)
    ∧ (length (generation_messages prompt system_prompt) = 2
       ↔ ∃ sp, system_prompt = Some sp ∧ sp ≠ EmptyString)
    ∧ match out with
      | Ok text => Str.strip text = text
      | Err e =>
          exn_cls e = Exception
          ∧ ∃ reason, exn_str e = "Error generating text: " +:+ reason
      end.
Proof.
  eexists. split; [apply run_generate_text|].
  split; [|split].
  - unfold generation_messages. now rewrite last_snoc.
  - unfold generation_messages. destruct system_prompt as [[|c sp]|]; simpl.
    + split; [discriminate|]. intros (sp & [= <-] & H). congruence.
    + split; [|reflexivity]. intros _. eexists; split; [reflexivity|].
      discriminate.
    + split; [discriminate|]. intros (sp & [=] & _).
  - destruct (chat_create _ _) as [[text|]|e]; simpl.
    + apply strip_idem.
    + split; [reflexivity|eauto].
    + split; [reflexivity|eauto].
Qed.

(** ** The text-returning methods of [AnthropicClient] *)

(** What [stripped_text] inside a [try] with a chaining handler comes to. *)
Lemma run_text_method chat_create label req lg :
  run chat_create
    (try_except (response ← await_create req; Anthropic.stripped_text response)
       (λ e, Raise (chained label e))) lg
  = (match chat_create (length lg) req with
     | Ok (Some text) => Ok (Str.strip text)
     | Ok None =>
         Err (chained label
                (mk_exn AttributeError
                   "'NoneType' object has no attribute 'strip'"))
     | Err e => Err (chained label e)
     end, lg ++ [req]).
Proof. simpl. destruct (chat_create _ _) as [[text|]|e]; reflexivity. Qed.

Lemma text_method_outcome label (r : reply) :
  match match r with
        | Ok (Some text) => Ok (Str.strip text)
        | Ok None =>
            Err (chained label
                   (mk_exn AttributeError
                      "'NoneType' object has no attribute 'strip'"))
        | Err e => Err (chained label e)
        end with
  | Ok text => Str.strip text = text
  | Err e => exn_cls e = Exception ∧ ∃ reason, exn_str e = label +:+ reason
  end.
Proof.
  destruct r as [[text|]|e]; simpl; [apply strip_idem|split..]; eauto.
Qed.

(** X2.  [summarize], [answer_question] and [clean_html_content] each send
    one request holding a single user message; the text they return is
    stripped, and every failure (of the call, or a reply without text)
    leaves as an [Exception] whose text starts with the method's own
    prefix. *)
Theorem text_methods_contract (chat_create : provider) (lg : log)
    (content question html_content style : string) (max_length : Z) :
  (∃ out,
     run chat_create (Anthropic.summarize content max_length style) lg
     = (out, lg ++ [[("user",
                      Anthropic.summarize_prompt content max_length style)]])
     ∧ match out with
       | Ok text => Str.strip text = text
       | Err e =>
           exn_cls e = Exception
           ∧ ∃ reason, exn_str e = "Error summarizing content: " +:+ reason
       end)
  ∧ (∃ out,
       run chat_create (Anthropic.answer_question content question) lg
       = (out, lg ++ [[("user", Anthropic.question_prompt content question)]])
       ∧ match out with
         | Ok text => Str.strip text = text
         | Err e =>
             exn_cls e = Exception
             ∧ ∃ reason, exn_str e = "Error answering question: " +:+ reason
         end)
  ∧ (∃ out,
       run chat_create (Anthropic.clean_html_content html_content) lg
       = (out, lg ++ [[("user", Anthropic.html_prompt html_content)]])
       ∧ match out with
         | Ok text => Str.strip text = text
         | Err e =>
             exn_cls e = Exception
             ∧ ∃ reason,
                 exn_str e = "Error cleaning HTML content: " +:+ reason
         end).
Proof.
  repeat split; eexists; (split; [apply run_text_method|]);
    apply text_method_outcome.
Qed.

Lemma style_instruction_other style :
  style ≠ "concise" → style ≠ "detailed" → style ≠ "bullet_points" →
  Anthropic.style_instructions !! style = None.
Proof.
  intros H1 H2 H3. unfold Anthropic.style_instructions.
  rewrite !lookup_insert_ne by congruence.
  now apply lookup_singleton_ne.
Qed.

(** X3.  A style that is none of [concise], [detailed] and [bullet_points]
    is summarized as [concise]: the two prompts are the same text. *)
Theorem summarize_unknown_style (content style : string) (max_length : Z) :
  style ≠ "concise" → style ≠ "detailed" → style ≠ "bullet_points" →
  Anthropic.summarize_prompt content max_length style
  = Anthropic.summarize_prompt content max_length "concise"
  ∧ Anthropic.summarize content max_length style
    = Anthropic.summarize content max_length "concise".
Proof.
  intros H1 H2 H3.
  assert (Hp : Anthropic.summarize_prompt content max_length style
               = Anthropic.summarize_prompt content max_length "concise").
  { unfold Anthropic.summarize_prompt, Anthropic.style_instruction.
    now rewrite (style_instruction_other style H1 H2 H3). }
  split; [exact Hp|]. unfold Anthropic.summarize. now rewrite Hp.
Qed.

Lemma summarize_unknown_style_witness :
  Anthropic.summarize_prompt "Long text." 50 "terse"
  = Anthropic.summarize_prompt "Long text." 50 "concise"
  ∧ Anthropic.summarize "Long text." 50 "terse"
    = Anthropic.summarize "Long text." 50 "concise".
Proof.
  apply (summarize_unknown_style "Long text." "terse" 50); discriminate.
Defined.

(** ** The JSON-returning methods of [AnthropicClient] *)

Lemma run_parse_method json_loads chat_create label req lg :
  run chat_create
    (try_except
       (response ← await_create req; Anthropic.parse_reply json_loads response)
       (λ e, Raise (chained label e))) lg
  = (parsed_answer json_loads label (chat_create (length lg) req),
     lg ++ [req]).
Proof.
  simpl. unfold parsed_answer.
  destruct (chat_create _ _) as [[text|]|e]; simpl; try reflexivity.
  rewrite unfence_three_tier. simpl.
  now destruct (json_loads (three_tier text)).
Qed.

(** X4.  [classify], [extract_entities] and [extract_structured_data]
    treat the reply alike: each sends one user message, hands the
    three-tier extraction of the reply to [json.loads] and returns its
    value; a failed call, a reply without text and a text that does not
    parse leave as an [Exception] chained under the method's own prefix. *)
Theorem json_methods_contract (json_loads : string → result json)
    (chat_create : provider) (lg : log) (content schema_str : string)
    (instructions : option string) (categories : list string)
    (multi_label : bool) (entity_types : option (list string)) :
  run chat_create
    (Anthropic.classify json_loads content categories multi_label) lg
  = (parsed_answer json_loads "Error classifying content: "
       (chat_create (length lg)
          [("user", Anthropic.classify_prompt content categories multi_label)]),
     lg ++ [[("user",
              Anthropic.classify_prompt content categories multi_label)]])
  ∧ run chat_create
      (Anthropic.extract_entities json_loads content entity_types) lg
    = (parsed_answer json_loads "Error extracting entities: "
         (chat_create (length lg)
            [("user", Anthropic.entities_prompt content entity_types)]),
       lg ++ [[("user", Anthropic.entities_prompt content entity_types)]])
  ∧ run chat_create
      (Anthropic.extract_structured_data json_loads content schema_str
         instructions) lg
    = (parsed_answer json_loads "Error extracting structured data: "
         (chat_create (length lg)
            [("user", Anthropic.prompt content schema_str instructions)]),
       lg ++ [[("user", Anthropic.prompt content schema_str instructions)]]).
Proof.
  split; [|split].
  - apply (run_parse_method json_loads chat_create
             "Error classifying content: ").
  - apply (run_parse_method json_loads chat_create
             "Error extracting entities: ").
  - unfold Anthropic.extract_structured_data. simpl. unfold parsed_answer.
    destruct (chat_create _ _) as [[text|]|e]; simpl; try reflexivity.
    rewrite unfence_three_tier. simpl.
    now destruct (json_loads (three_tier text)).
Qed.

(** An empty list of entity types is treated as no list at all: the
    prompt asks for all named entities, and the coroutine is the same. *)
Lemma extract_entities_empty_types (json_loads : string → result json)
    (content : string) :
  Anthropic.entities_prompt content (Some [])
  = Anthropic.entities_prompt content None
  ∧ Anthropic.extract_entities json_loads content (Some [])
    = Anthropic.extract_entities json_loads content None
  ∧ ∀ types, types ≠ [] →
      Anthropic.entity_instruction (Some types)
      = "Extract only these entity types: " +:+ Str.join ", " types.
Proof.
  repeat split. intros [|t types] H; [congruence|reflexivity].
Qed.

(** ** What the extraction leaves *)

Lemma contains_cons sep c s :
  Str.contains sep s = true → Str.contains sep (String c s) = true.
Proof. intros H. cbn [Str.contains]. rewrite H. apply orb_true_r. Qed.

Lemma contains_lstrip sep s :
  Str.contains sep (Str.lstrip s) = true → Str.contains sep s = true.
Proof.
  induction s as [|c s IH]; [trivial|]. cbn [Str.lstrip].
  destruct (Str.isspace c); [|trivial].
  intros H. apply contains_cons. now apply IH.
Qed.

Lemma contains_slice_to sep n s :
  sep ≠ EmptyString →
  Str.contains sep (Str.slice_to n s) = true → Str.contains sep s = true.
Proof.
  intros Hsep. revert s; induction n as [|n IH]; intros s.
  - destruct s; simpl; rewrite (startswith_empty sep Hsep); discriminate.
  - destruct s as [|c s]; [trivial|].
    cbn [Str.slice_to Str.contains]. rewrite !orb_true_iff.
    intros [H|H].
    + left. exact (startswith_slice_to sep Hsep (S n) (String c s) H).
    + right. now apply IH.
Qed.

Lemma rstrip_prefix s : ∃ n, Str.rstrip s = Str.slice_to n s.
Proof.
  induction s as [|c s [n IH]]; [now exists 0|].
  rewrite rstrip_cons. destruct (Str.rstrip s) as [|c' r] eqn:Hr.
  - destruct (Str.isspace c); [now exists 0|].
    exists 1. simpl. destruct s; reflexivity.
  - exists (S n). simpl. now rewrite <- IH.
Qed.

Lemma contains_strip sep s :
  sep ≠ EmptyString →
  Str.contains sep (Str.strip s) = true → Str.contains sep s = true.
Proof.
  intros Hsep H. unfold Str.strip in H.
  destruct (rstrip_prefix (Str.lstrip s)) as [n Hn]. rewrite Hn in H.
  apply contains_lstrip. exact (contains_slice_to sep n _ Hsep H).
Qed.

Lemma contains_before sep s :
  sep ≠ EmptyString → Str.contains sep (text_before sep s) = false.
Proof.
  intros Hsep. apply not_true_is_false. intros H.
  apply (contains_find sep Hsep) in H as [i Hi].
  rewrite (find_before sep Hsep) in Hi. discriminate.
Qed.

Lemma startswith_app p q s :
  Str.startswith (p +:+ q) s = true → Str.startswith p s = true.
Proof.
  revert s; induction p as [|a p IH]; intros s; [reflexivity|].
  destruct s as [|b s]; simpl; [discriminate|].
  destruct (Ascii.eqb a b); [apply IH|discriminate].
Qed.

Lemma startswith_fence s :
  Str.startswith Anthropic.json_fence s = true →
  Str.startswith Anthropic.fence s = true.
Proof. apply (startswith_app Anthropic.fence "json"). Qed.

Lemma contains_json_fence s :
  Str.contains Anthropic.json_fence s = true →
  Str.contains Anthropic.fence s = true.
Proof.
  induction s as [|c s IH].
  - cbn [Str.contains]. rewrite !orb_false_r. apply startswith_fence.
  - cbn [Str.contains]. rewrite !orb_true_iff.
    intros [H|H]; [left; now apply startswith_fence|right; now apply IH].
Qed.

Lemma three_tier_plain text :
  Str.contains Anthropic.fence text = false → three_tier text = text.
Proof.
  intros H. unfold three_tier.
  assert (Hj : Str.contains Anthropic.json_fence text = false).
  { apply not_true_is_false. intros Hj.
    apply contains_json_fence in Hj. congruence. }
  rewrite (contains_text_after _ _ json_fence_nonempty) in Hj.
  rewrite (contains_text_after _ _ fence_nonempty) in H.
  destruct (text_after Anthropic.json_fence text); [discriminate|].
  now destruct (text_after Anthropic.fence text).
Qed.

Lemma three_tier_no_fence text :
  Str.contains Anthropic.fence (three_tier text) = false.
Proof.
  unfold three_tier.
  destruct (text_after Anthropic.json_fence text) as [rest|].
  - apply not_true_is_false. intros H.
    apply (contains_strip _ _ fence_nonempty) in H.
    now rewrite (contains_before _ _ fence_nonempty) in H.
  - destruct (text_after Anthropic.fence text) as [rest|] eqn:Hf.
    + apply not_true_is_false. intros H.
      apply (contains_strip _ _ fence_nonempty) in H.
      now rewrite (contains_before _ _ fence_nonempty) in H.
    + rewrite (contains_text_after _ _ fence_nonempty). now rewrite Hf.
Qed.

(** X5.  The JSON extraction of [AnthropicClient] never fails and never
    leaves a code fence in the text it hands to [json.loads]; a text
    without a fence is handed over unchanged (not even stripped), and
    extracting twice is the same as extracting once. *)
Theorem unfence_leaves_no_fence (text : string) :
  ∃ inner,
    Anthropic.unfence text = Ok inner
    ∧ Str.contains Anthropic.fence inner = false
    ∧ Anthropic.unfence inner = Ok inner
    ∧ (Str.contains Anthropic.fence text = false → inner = text).
Proof.
  exists (three_tier text). split; [apply unfence_three_tier|].
  split; [apply three_tier_no_fence|]. split.
  - rewrite unfence_three_tier. f_equal.
    apply three_tier_plain, three_tier_no_fence.
  - apply three_tier_plain.
Qed.

(** ** The join, for every schedule *)

Section GatherAnySchedule.

Variable chat_create : provider.
Context {A : Type}.

Lemma results_waiting (ts : list (task A)) i n req k :
  ts !! i = Some (Waiting n req k) → results ts = None.
Proof.
  revert i; induction ts as [|t ts IH]; intros [|i]; simpl; try discriminate.
  - now intros [= ->].
  - intros H. destruct t; try reflexivity. now rewrite (IH i H).
Qed.

Lemma start_all_waiting ms (specs : list (request * (reply → A))) lg :
  Forall2 single ms specs →
  Forall (λ t, ∃ n req k, t = Waiting n req k) (start_all ms lg).1.
Proof.
  intros H; revert lg; induction H as [|m spec ms specs Hm _ IH]; intros lg;
    simpl; [constructor|].
  destruct Hm as (k & -> & _). simpl.
  specialize (IH (lg ++ [spec.1])).
  destruct (start_all ms (lg ++ [spec.1])) as [ts lg2]. simpl in *.
  constructor; eauto.
Qed.

Lemma gather_loop_stalled sched :
  ∀ n (specs : list (request * (reply → A))) ts lg i m req k,
    all_track chat_create n specs ts →
    ts !! i = Some (Waiting m req k) → i ∉ sched →
    gather_loop chat_create sched ts lg = (Hung, lg).
Proof.
  induction sched as [|j sched IH]; intros n specs ts lg i m req k Htr Hi Hni;
    simpl; rewrite (all_track_no_failure _ _ _ _ Htr).
  - now rewrite (results_waiting ts i m req k Hi).
  - destruct (complete_tracks chat_create n specs ts j lg Htr)
      as (ts' & -> & Htr' & Hne & _).
    apply not_elem_of_cons in Hni as [Hij Hni].
    apply (IH n specs ts' lg i m req k); [assumption| |assumption].
    now rewrite (Hne i Hij).
Qed.

(** A task whose call never completes stalls the join. *)
Lemma gather_stalled ms (specs : list (request * (reply → A))) sched lg i :
  Forall2 single ms specs → i < length ms → i ∉ sched →
  gather chat_create ms sched lg = (Hung, lg ++ map fst specs).
Proof.
  intros Hms Hi Hni. unfold gather.
  pose proof (start_all_waiting ms specs lg Hms) as Hw.
  destruct (start_all_tracks chat_create ms specs lg Hms) as (ts & Hs & Htr).
  rewrite Hs in Hw |- *. simpl in Hw.
  assert (Hlen : length ts = length ms).
  { rewrite (all_track_length _ _ _ _ Htr). symmetry.
    exact (Forall2_length _ _ _ Hms). }
  destruct (lookup_lt_is_Some_2 ts i) as [t Ht]; [lia|].
  rewrite Forall_forall in Hw.
  destruct (Hw t) as (n & req & k & ->).
  { apply list_elem_of_lookup. eauto. }
  exact (gather_loop_stalled sched _ specs ts _ i n req k Htr Ht Hni).
Qed.

End GatherAnySchedule.

Lemma covered_or_not (n : nat) (sched : list nat) :
  (∀ i, i < n → i ∈ sched) ∨ (∃ i, i < n ∧ i ∉ sched).
Proof.
  induction n as [|n [IH|(i & Hi & Hni)]].
  - left. intros i Hi. lia.
  - destruct (decide (n ∈ sched)) as [Hn|Hn].
    + left. intros i Hi. destruct (decide (i = n)) as [->|]; [exact Hn|].
      apply IH. lia.
    + right. exists n. split; [lia|exact Hn].
  - right. exists i. split; [lia|exact Hni].
Qed.

Section MatcherAnySchedule.

Context {python : Python}.
Variable json_loads : string → result json.
Variable chat_create : provider.

Lemma recommend_speakers_stalls user_bio speakers threshold sched lg i :
  all_promptable speakers → i < length speakers → i ∉ sched →
  recommend_speakers json_loads chat_create user_bio speakers threshold
    sched lg
  = (Hung, lg ++ map (scoring_request user_bio) speakers).
Proof.
  intros Hall Hi Hni. unfold recommend_speakers.
  rewrite (gather_stalled chat_create _
             (scoring_specs json_loads user_bio speakers) sched lg i).
  - now rewrite scoring_specs_requests.
  - now apply tasks_single.
  - now rewrite length_map.
  - exact Hni.
Qed.

(** The three ways a run can go. *)
Lemma recommend_speakers_cases user_bio speakers threshold sched lg :
  (∃ e, prompt_failure user_bio speakers = Some e
        ∧ ¬ all_promptable speakers
        ∧ recommend_speakers json_loads chat_create user_bio speakers
            threshold sched lg
          = (Raised e, lg ++ scoring_requests user_bio speakers))
  ∨ (all_promptable speakers
     ∧ (∃ i, i < length speakers ∧ i ∉ sched)
     ∧ recommend_speakers json_loads chat_create user_bio speakers
         threshold sched lg
       = (Hung, lg ++ scoring_requests user_bio speakers))
  ∨ (all_promptable speakers
     ∧ (∀ i, i < length speakers → i ∈ sched)
     ∧ recommend_speakers json_loads chat_create user_bio speakers
         threshold sched lg
       = (match rank Scored.score threshold
                  (scored_batch json_loads chat_create user_bio (length lg)
                     speakers) with
          | Ok matches => Returned matches
          | Err e => Raised e
          end, lg ++ scoring_requests user_bio speakers)).
Proof.
  destruct (prompt_failure_cases user_bio speakers) as [Hall|[e He]].
  - right. rewrite (scoring_requests_all _ _ Hall).
    destruct (covered_or_not (length speakers) sched) as [Hc|(i & Hi & Hni)].
    + right. split; [exact Hall|]. split; [exact Hc|].
      now apply recommend_speakers_ranks.
    + left. split; [exact Hall|]. split; [eauto|].
      now apply (recommend_speakers_stalls _ _ _ _ _ i).
  - left. exists e. split; [exact He|]. split.
    + intros Hall. apply (prompt_failure_None user_bio) in Hall. congruence.
    + now apply recommend_speakers_unpromptable.
Qed.

End MatcherAnySchedule.

Lemma filter_length_le {A} (P : A → bool) l :
  length (List.filter P l) ≤ length l.
Proof. induction l as [|x l IH]; simpl; [lia|]. destruct (P x); simpl; lia. Qed.

(** X6.  Whatever the order of completion, and whether or not every call
    completes, [recommend_speakers] sends exactly one request for each
    speaker whose prompt can be built, in catalog order, and nothing else:
    no call is repeated, and no request is sent for an entry without a
    prompt.  With a prompt for every speaker that is one request per
    speaker. *)
Theorem one_request_per_speaker {python : Python}
    (json_loads : string → result json)
    (chat_create : provider) (user_bio : string)
    (speakers : list Speaker.t) (threshold : pyfloat) (sched : list nat)
    (lg : log) :
  (recommend_speakers json_loads chat_create user_bio speakers threshold
     sched lg).2
  = lg ++ map (scoring_request user_bio) (List.filter promptable speakers)
  ∧ length (recommend_speakers json_loads chat_create user_bio speakers
              threshold sched lg).2
    ≤ length lg + length speakers
  ∧ (all_promptable speakers →
     (recommend_speakers json_loads chat_create user_bio speakers threshold
        sched lg).2
     = lg ++ map (scoring_request user_bio) speakers
     ∧ length (recommend_speakers json_loads chat_create user_bio speakers
                 threshold sched lg).2
       = length lg + length speakers).
Proof.
  assert (H : (recommend_speakers json_loads chat_create user_bio speakers
                 threshold sched lg).2
              = lg ++ scoring_requests user_bio speakers).
  { destruct (recommend_speakers_cases json_loads chat_create user_bio
                speakers threshold sched lg)
      as [(e & _ & _ & ->)|[(_ & _ & ->)|(_ & _ & ->)]]; reflexivity. }
  split; [exact H|]. split.
  - rewrite H, length_app. unfold scoring_requests. rewrite length_map.
    pose proof (filter_length_le promptable speakers). lia.
  - intros Hall. rewrite H, (scoring_requests_all _ _ Hall).
    split; [reflexivity|]. now rewrite length_app, length_map.
Qed.

(** X7.  The join is a full barrier: with a prompt for every speaker,
    [recommend_speakers] yields no result at all exactly when the call of
    some speaker never completes, and it returns a ranking only when every
    speaker has a prompt and every call has completed: never a partial
    ranking. *)
Theorem no_partial_result {python : Python}
    (json_loads : string → result json)
    (chat_create : provider) (user_bio : string)
    (speakers : list Speaker.t) (threshold : pyfloat) (sched : list nat)
    (lg : log) :
  ((recommend_speakers json_loads chat_create user_bio speakers threshold
      sched lg).1 = Hung
   ↔ all_promptable speakers ∧ ∃ i, i < length speakers ∧ i ∉ sched)
  ∧ ∀ ms,
      (recommend_speakers json_loads chat_create user_bio speakers threshold
         sched lg).1 = Returned ms →
      all_promptable speakers
      ∧ (∀ i, i < length speakers → i ∈ sched).
Proof.
  destruct (recommend_speakers_cases json_loads chat_create user_bio
              speakers threshold sched lg)
    as [(e & _ & Hn & Hr)|[(Hall & (i & Hi & Hni) & Hr)|(Hall & Hc & Hr)]];
    rewrite Hr; simpl.
  - split; [split; [discriminate|tauto]|discriminate].
  - split; [split; eauto|discriminate].
  - split.
    + split.
      * destruct (rank _ _ _); discriminate.
      * intros (_ & i & Hi & Hni). exfalso. apply Hni, Hc, Hi.
    + intros ms _. split; [exact Hall|exact Hc].
Qed.

(** ** When the ranking raises *)

Section RaiseFacts.

Context {A : Type} (score_of : A → json).

Lemma keep_above_Err threshold scored e :
  keep_above score_of threshold scored = Err e →
  exn_cls e = TypeError
  ∧ Exists (λ s, as_number (score_of s) = None) scored.
Proof.
  induction scored as [|s scored IH]; simpl; [discriminate|].
  unfold py_ge. destruct (as_number (score_of s)) as [x|] eqn:Hx; simpl.
  - destruct (keep_above score_of threshold scored) as [rest|e']; simpl;
      [discriminate|].
    intros [= <-]. destruct (IH eq_refl) as [Hc He].
    split; [exact Hc|now apply Exists_cons_tl].
  - intros [= <-]. split; [reflexivity|now apply Exists_cons_hd].
Qed.

Lemma keep_above_raises threshold scored :
  Exists (λ s, as_number (score_of s) = None) scored →
  ∃ e, keep_above score_of threshold scored = Err e.
Proof.
  induction 1 as [s scored Hs|s scored _ [e IH]]; simpl.
  - unfold py_ge. rewrite Hs. simpl. eauto.
  - destruct (py_ge (score_of s) threshold); simpl; [|eauto].
    rewrite IH. simpl. eauto.
Qed.

Lemma rank_Err threshold scored e :
  rank score_of threshold scored = Err e ↔
  keep_above score_of threshold scored = Err e.
Proof.
  unfold rank. destruct (keep_above score_of threshold scored); simpl;
    split; congruence.
Qed.

End RaiseFacts.

(** X8.  [recommend_speakers] raises exactly when the prompt of some
    speaker cannot be built, or every call has completed and the score of
    some match in the batch is not a number.  With a prompt for every
    speaker what it raises is a [TypeError]; without, it is the exception
    of the first speaker whose prompt cannot be built.  Failed calls and
    unparsable replies never make it raise. *)
Theorem recommend_speakers_raises_iff {python : Python}
    (json_loads : string → result json)
    (chat_create : provider) (user_bio : string)
    (speakers : list Speaker.t) (threshold : pyfloat) (sched : list nat)
    (lg : log) :
  let batch := scored_batch json_loads chat_create user_bio (length lg)
                 speakers in
  let out := (recommend_speakers json_loads chat_create user_bio speakers
                threshold sched lg).1 in
  ((∃ e, out = Raised e)
   ↔ ¬ all_promptable speakers
     ∨ ((∀ i, i < length speakers → i ∈ sched)
        ∧ Exists (λ m, as_number (Scored.score m) = None) batch))
  ∧ (all_promptable speakers → ∀ e, out = Raised e → exn_cls e = TypeError)
  ∧ (∀ e, prompt_failure user_bio speakers = Some e → out = Raised e).
Proof.
  intros batch out. unfold out.
  destruct (recommend_speakers_cases json_loads chat_create user_bio
              speakers threshold sched lg)
    as [(e & He & Hn & Hr)|[(Hall & (i & Hi & Hni) & Hr)|(Hall & Hc & Hr)]];
    rewrite Hr; simpl.
  - split; [split; eauto|]. split; [tauto|].
    intros e' He'. congruence.
  - split.
    + split; [intros [e He]; discriminate|].
      intros [Hn|[Hc _]]; [tauto|]. exfalso. apply Hni, Hc, Hi.
    + split; [discriminate|].
      intros e He. apply (prompt_failure_None user_bio) in Hall. congruence.
  - fold batch.
    destruct (rank Scored.score threshold batch) as [ranked|e0] eqn:Hrank.
    + split.
      * split; [intros [e He]; discriminate|].
        intros [Hn|[_ Hex]]; [tauto|].
        destruct (keep_above_raises Scored.score threshold _ Hex) as [e He].
        apply rank_Err in He. congruence.
      * split; [discriminate|].
        intros e He. apply (prompt_failure_None user_bio) in Hall.
        congruence.
    + apply rank_Err in Hrank.
      destruct (keep_above_Err _ _ _ _ Hrank) as [Hcls Hex].
      split; [split; eauto|]. split.
      * intros _ e [= <-]. exact Hcls.
      * intros e He. apply (prompt_failure_None user_bio) in Hall.
        congruence.
Qed.

(** ** Ranking twice, and the head of a ranking *)

Lemma filter_filter_sub {A} (P Q : A → bool) l :
  (∀ x, P x = true → Q x = true) →
  List.filter P (List.filter Q l) = List.filter P l.
Proof.
  intros H. induction l as [|x l IH]; simpl; [reflexivity|].
  destruct (Q x) eqn:HQ; simpl.
  - destruct (P x); now rewrite IH.
  - destruct (P x) eqn:HP; [|exact IH]. apply H in HP. congruence.
Qed.

Lemma passes_lower {A} (score_of : A → json) t1 t2 s :
  float_lt t1 t2 = true →
  passes score_of t2 s = true → passes score_of t1 s = true.
Proof.
  unfold passes. destruct (as_number (score_of s)); [|discriminate].
  apply float_ge_lower.
Qed.

(** X9.  Rankings compose: filtering the ranking for a threshold by a
    higher threshold gives the ranking for the higher threshold, in the
    same order, so a caller may narrow a result without scoring again. *)
Theorem narrow_ranking (t1 t2 : pyfloat) (scored ranked1 : list Scored.t) :
  float_lt t1 t2 = true →
  rank Scored.score t1 scored = Ok ranked1 →
  rank Scored.score t2 scored
  = Ok (List.filter (passes Scored.score t2) ranked1).
Proof.
  intros Hlt H1.
  assert (Hnum : Forall (number Scored.score) scored).
  { unfold rank in H1.
    destruct (keep_above Scored.score t1 scored) as [kept|e] eqn:Hk;
      [|discriminate].
    exact (keep_above_Ok _ _ _ _ Hk). }
  rewrite rank_numbers in H1 |- * by assumption.
  injection H1 as <-. f_equal.
  rewrite filter_sort_by_score by apply kept_comparable.
  f_equal. symmetry. apply filter_filter_sub.
  intros s. now apply passes_lower.
Qed.

Lemma narrow_ranking_witness :
  rank Scored.score (Example.float_of_Z 6)
    [Example.scored_ann; Example.scored_bob; Example.scored_cy]
  = Ok (List.filter (passes Scored.score (Example.float_of_Z 6))
          [Example.scored_ann; Example.scored_cy; Example.scored_bob]).
Proof.
  apply (narrow_ranking (Example.float_of_Z 0) (Example.float_of_Z 6));
    reflexivity.
Defined.

Lemma StronglySorted_take_drop {A} (R : A → A → Prop) l k a b :
  StronglySorted R l → a ∈ take k l → b ∈ drop k l → R a b.
Proof.
  intros Hs; revert k; induction Hs as [|x l Hs IH Hx]; intros k.
  - rewrite take_nil. intros H. now apply elem_of_nil in H.
  - destruct k as [|k]; simpl.
    + intros H. now apply elem_of_nil in H.
    + intros Ha Hb. apply elem_of_cons in Ha as [->|Ha].
      * rewrite Forall_forall in Hx. apply Hx.
        exact (elem_of_sublist _ _ _ Hb (sublist_drop l k)).
      * now apply (IH k).
Qed.

(** X10.  In a ranking, every match among the first [k] scores at least as
    high as every match after them, so a caller showing [matches[:k]]
    shows the [k] best. *)
Theorem first_k_are_best (threshold : pyfloat)
    (scored ranked : list Scored.t) (k : nat) (a b : Scored.t) :
  rank Scored.score threshold scored = Ok ranked →
  a ∈ take k ranked → b ∈ drop k ranked →
  score_ge Scored.score a b = true.
Proof.
  intros Hr Ha Hb.
  assert (Hnum : Forall (number Scored.score) scored).
  { unfold rank in Hr.
    destruct (keep_above Scored.score threshold scored) as [kept|e] eqn:Hk;
      [|discriminate].
    exact (keep_above_Ok _ _ _ _ Hk). }
  rewrite rank_numbers in Hr by assumption. injection Hr as <-.
  eapply (StronglySorted_take_drop
            (λ a b, score_ge Scored.score a b = true)); [|exact Ha|exact Hb].
  apply sort_by_score_sorted, kept_comparable.
Qed.

Lemma first_k_are_best_witness :
  score_ge Scored.score Example.scored_cy Example.scored_bob = true.
Proof.
  apply (first_k_are_best (Example.float_of_Z 0)
           [Example.scored_ann; Example.scored_bob; Example.scored_cy]
           [Example.scored_ann; Example.scored_cy; Example.scored_bob] 2).
  - reflexivity.
  - simpl. right. left.
  - simpl. left.
Defined.

(** X11.  A zero-score match, which is what a failed item becomes, is in
    the ranking exactly when the threshold is at most 0; with the default
    threshold of 6 a failed item is never shown. *)
Theorem failed_item_shown (threshold : pyfloat)
    (scored ranked : list Scored.t) (m : Scored.t) :
  rank Scored.score threshold scored = Ok ranked →
  m ∈ scored → Scored.score m = JInt 0 →
  (m ∈ ranked ↔ float_ge (FFin 0) threshold = true)
  ∧ (threshold = FFin 6 → m ∉ ranked).
Proof.
  intros Hr Hm Hs.
  assert (Hnum : Forall (number Scored.score) scored).
  { unfold rank in Hr.
    destruct (keep_above Scored.score threshold scored) as [kept|e] eqn:Hk;
      [|discriminate].
    exact (keep_above_Ok _ _ _ _ Hk). }
  rewrite rank_numbers in Hr by assumption. injection Hr as <-.
  assert (Hiff : m ∈ sort_by_score Scored.score
                       (List.filter (passes Scored.score threshold) scored)
                 ↔ float_ge (FFin 0) threshold = true).
  { rewrite (sort_by_score_perm Scored.score).
    rewrite list_elem_of_In, filter_In, <- list_elem_of_In.
    unfold passes. rewrite Hs. simpl. tauto. }
  split; [exact Hiff|].
  intros ->. rewrite Hiff. discriminate.
Qed.

Lemma failed_item_shown_witness :
  (Example.scored_bob ∈ [Example.scored_ann; Example.scored_cy]
   ↔ float_ge (FFin 0) (Example.float_of_Z 6) = true)
  ∧ (Example.float_of_Z 6 = FFin 6 →
     Example.scored_bob ∉ [Example.scored_ann; Example.scored_cy]).
Proof.
  apply (failed_item_shown (Example.float_of_Z 6)
           [Example.scored_ann; Example.scored_bob; Example.scored_cy]).
  - reflexivity.
  - right. left.
  - reflexivity.
Defined.

(** ** Sizes *)

Section GatherLength.

Variable chat_create : provider.
Context {A : Type}.

Lemma start_all_length (ms : list (coro A)) lg :
  length (start_all ms lg).1 = length ms.
Proof.
  revert lg; induction ms as [|m ms IH]; intros lg; simpl; [reflexivity|].
  destruct (advance m lg) as [t lg1].
  specialize (IH lg1). destruct (start_all ms lg1) as [ts lg2].
  simpl in *. now rewrite IH.
Qed.

Lemma complete_length i (ts : list (task A)) lg :
  length (complete chat_create i ts lg).1 = length ts.
Proof.
  unfold complete. destruct (ts !! i) as [[a|e|n req k]|]; try reflexivity.
  destruct (advance (k (chat_create n req)) lg) as [t lg']. simpl.
  apply length_insert.
Qed.

Lemma results_length (ts : list (task A)) rs :
  results ts = Some rs → length rs = length ts.
Proof.
  revert rs; induction ts as [|t ts IH]; intros rs; simpl.
  - now intros [= <-].
  - destruct t as [a|e|n req k]; try discriminate.
    destruct (results ts) as [rs'|]; simpl; [|discriminate].
    intros [= <-]. simpl. now rewrite (IH rs').
Qed.

Lemma gather_loop_length sched : ∀ (ts : list (task A)) lg rs lg',
  gather_loop chat_create sched ts lg = (Returned rs, lg') →
  length rs = length ts.
Proof.
  induction sched as [|i sched IH]; intros ts lg rs lg'; simpl;
    destruct (first_failure ts); try discriminate.
  - destruct (results ts) as [rs'|] eqn:Hr; [|discriminate].
    intros [= <- _]. now apply results_length.
  - pose proof (complete_length i ts lg) as Hl.
    destruct (complete chat_create i ts lg) as [ts' lg1]. simpl in Hl.
    intros H. rewrite (IH _ _ _ _ H). exact Hl.
Qed.

(** Whatever the coroutines do, a join that returns returns one result per
    coroutine. *)
Lemma gather_length (ms : list (coro A)) sched lg rs lg' :
  gather chat_create ms sched lg = (Returned rs, lg') →
  length rs = length ms.
Proof.
  unfold gather. pose proof (start_all_length ms lg) as Hl.
  destruct (start_all ms lg) as [ts lg1]. simpl in Hl.
  intros H. rewrite (gather_loop_length _ _ _ _ _ H). exact Hl.
Qed.

End GatherLength.

Lemma keep_above_length {A} (score_of : A → json) threshold scored kept :
  keep_above score_of threshold scored = Ok kept →
  length kept ≤ length scored.
Proof.
  revert kept; induction scored as [|s scored IH]; intros kept; simpl.
  - intros [= <-]. reflexivity.
  - destruct (py_ge (score_of s) threshold) as [keep|e]; simpl;
      [|discriminate].
    destruct (keep_above score_of threshold scored) as [rest|e]; simpl;
      [|discriminate].
    intros [= <-]. specialize (IH rest eq_refl).
    destruct keep; simpl; lia.
Qed.

Lemma rank_length {A} (score_of : A → json) threshold scored ranked :
  rank score_of threshold scored = Ok ranked →
  length ranked ≤ length scored.
Proof.
  unfold rank.
  destruct (keep_above score_of threshold scored) as [kept|e] eqn:Hk; simpl;
    [|discriminate].
  intros [= <-].
  rewrite (Permutation_length (sort_by_score_perm score_of kept)).
  exact (keep_above_length _ _ _ _ Hk).
Qed.

Lemma validate_all_length model_validate ms vs :
  validate_all model_validate ms = Ok vs → length vs = length ms.
Proof.
  revert vs; induction ms as [|m ms IH]; intros vs; simpl.
  - now intros [= <-].
  - destruct (model_validate m) as [v|e]; simpl; [|discriminate].
    destruct (validate_all model_validate ms) as [vs'|e]; simpl;
      [|discriminate].
    intros [= <-]. simpl. now rewrite (IH vs').
Qed.

Lemma recommend_speakers_length {python : Python} json_loads chat_create
    user_bio speakers threshold sched lg ms lg' :
  recommend_speakers json_loads chat_create user_bio speakers threshold
    sched lg = (Returned ms, lg') →
  length ms ≤ length speakers.
Proof.
  unfold recommend_speakers.
  destruct (gather _ _ _ _) as [[scored|e|] lg1] eqn:Hg; try discriminate.
  destruct (rank Scored.score threshold scored) as [ranked|e] eqn:Hr;
    [|discriminate].
  intros [= <- _].
  apply gather_length in Hg. rewrite length_map in Hg. rewrite <- Hg.
  exact (rank_length _ _ _ _ Hr).
Qed.

(** ** The endpoints *)

Section EndpointFacts.

Context {python : Python}.
Variable json_loads : string → result json.
Variable chat_create : provider.
Variable api_key : option string.
Variable model_validate : Scored.t → result SpeakerMatch.t.

(** What a successful response looks like. *)
Lemma match_speakers_Returned speakers_data request sched lg response lg' :
  match_speakers json_loads chat_create api_key model_validate
    speakers_data request sched lg = (Returned response, lg') →
  ∃ ms, recommend_speakers json_loads chat_create (user_bio request)
          speakers_data (threshold request) sched lg = (Returned ms, lg')
        ∧ validate_all model_validate ms = Ok (matches response)
        ∧ total_speakers response = length speakers_data
        ∧ matches_found response = length ms.
Proof.
  unfold match_speakers. destruct speakers_data as [|sp sps]; [discriminate|].
  destruct (negb _ || _); [discriminate|].
  destruct (SpeakerMatcher_init api_key); [|discriminate].
  destruct (recommend_speakers _ _ _ _ _ _ _) as [[ms|e|] lg1];
    try discriminate.
  destruct (validate_all model_validate ms) as [vs|e] eqn:Hv;
    [|discriminate].
  intros [= <- <-]. exists ms. simpl. auto.
Qed.

End EndpointFacts.

(** X12.  In every response of the match endpoint, [total_speakers] is the
    size of the catalog, [matches_found] is the number of matches in the
    response, and [matches_found] never exceeds [total_speakers]. *)
Theorem response_counts {python : Python}
    (json_loads : string → result json)
    (chat_create : provider) (api_key : option string)
    (model_validate : Scored.t → result SpeakerMatch.t)
    (speakers_data : list Speaker.t) (request : MatchRequest)
    (sched : list nat) (lg lg' : log) (response : MatchResponse) :
  match_speakers json_loads chat_create api_key model_validate
    speakers_data request sched lg = (Returned response, lg') →
  total_speakers response = length speakers_data
  ∧ matches_found response = length (matches response)
  ∧ matches_found response ≤ total_speakers response.
Proof.
  intros H.
  destruct (match_speakers_Returned _ _ _ _ _ _ _ _ _ _ H)
    as (ms & Hrec & Hv & Ht & Hf).
  rewrite Ht, Hf, (validate_all_length _ _ _ Hv).
  split; [reflexivity|]. split; [reflexivity|].
  exact (recommend_speakers_length _ _ _ _ _ _ _ _ _ Hrec).
Qed.

Lemma response_counts_witness :
  total_speakers Example.response = length Example.catalog
  ∧ matches_found Example.response = length (matches Example.response)
  ∧ matches_found Example.response ≤ total_speakers Example.response.
Proof.
  apply (response_counts Example.json_loads Example.chat_create
           Example.api_key Example.model_validate Example.catalog
           {| user_bio := Example.query;
              threshold := Example.float_of_Z 6 |} [2; 0; 1] []
           Example.requests Example.response).
  vm_compute. reflexivity.
Defined.

(** X13.  Every exception that leaves the match endpoint is an
    [HTTPException] with status 400 or 500: nothing raised while scoring,
    ranking or building the response escapes in another form. *)
Theorem only_http_errors {python : Python}
    (json_loads : string → result json)
    (chat_create : provider) (api_key : option string)
    (model_validate : Scored.t → result SpeakerMatch.t)
    (speakers_data : list Speaker.t) (request : MatchRequest)
    (sched : list nat) (lg lg' : log) (e : exn) :
  match_speakers json_loads chat_create api_key model_validate
    speakers_data request sched lg = (Raised e, lg') →
  exn_cls e = HTTPException 400 ∨ exn_cls e = HTTPException 500.
Proof.
  unfold match_speakers. destruct speakers_data as [|sp sps].
  - intros [= <- _]. now right.
  - destruct (negb _ || _); [intros [= <- _]; now left|].
    destruct (SpeakerMatcher_init api_key); [|intros [= <- _]; now right].
    destruct (recommend_speakers _ _ _ _ _ _ _) as [[ms|e'|] lg1];
      try discriminate.
    + destruct (validate_all model_validate ms); [discriminate|].
      intros [= <- _]. now right.
    + intros [= <- _]. now right.
Qed.

Lemma only_http_errors_witness :
  HTTPException 500 = HTTPException 400
  ∨ HTTPException 500 = HTTPException 500.
Proof.
  apply (only_http_errors Example.json_loads Example.wordy_create
           Example.api_key Example.model_validate [Example.ann]
           {| user_bio := Example.query; threshold := Example.float_of_Z 6 |}
           [0] [] [scoring_request Example.query Example.ann]
           (mk_exn (HTTPException 500)
              "Error matching speakers: '>=' not supported between instances of 'str' and 'float'")).
  vm_compute. reflexivity.
Defined.

(** X14.  Without an API key (unset or empty) a request that passes the two
    guards fails with HTTP 500, naming the missing key, before any request
    is sent to the provider. *)
Theorem missing_api_key {python : Python}
    (json_loads : string → result json)
    (chat_create : provider) (api_key : option string)
    (model_validate : Scored.t → result SpeakerMatch.t)
    (speakers_data : list Speaker.t) (request : MatchRequest)
    (sched : list nat) (lg : log) :
  speakers_data ≠ [] →
  10 ≤ String.length (Str.strip (user_bio request)) →
  api_key = None ∨ api_key = Some EmptyString →
  match_speakers json_loads chat_create api_key model_validate
    speakers_data request sched lg
  = (Raised (mk_exn (HTTPException 500)
               "Error matching speakers: OpenAI API key not provided"), lg).
Proof.
  intros Hne Hlen Hkey. rewrite match_speakers_scoring by assumption.
  destruct Hkey as [-> | ->]; reflexivity.
Qed.

Lemma missing_api_key_witness :
  match_speakers Example.json_loads Example.chat_create None
    Example.model_validate Example.catalog
    {| user_bio := Example.query; threshold := Example.float_of_Z 6 |}
    [0; 1; 2] []
  = (Raised (mk_exn (HTTPException 500)
               "Error matching speakers: OpenAI API key not provided"), []).
Proof.
  apply (missing_api_key Example.json_loads Example.chat_create None
           Example.model_validate Example.catalog
           {| user_bio := Example.query;
              threshold := Example.float_of_Z 6 |} [0; 1; 2] []).
  - discriminate.
  - vm_compute. lia.
  - now left.
Defined.

(** X15.  Start-up and the endpoints agree.  If loading the catalog raises,
    the application starts all the same with an empty catalog: the root
    endpoint reports 0 speakers and every match request fails with HTTP
    500 without a request to the provider.  In every case the count of
    the listing endpoint is the number the root endpoint reports, and it
    is the [total_speakers] of every match response. *)
Theorem startup_consistency {python : Python}
    (json_loads : string → result json)
    (chat_create : provider) (api_key : option string)
    (model_validate : Scored.t → result SpeakerMatch.t)
    (load : result (list Speaker.t)) (request : MatchRequest)
    (sched : list nat) (lg : log) :
  let speakers_data := lifespan load initial_speakers_data in
  Listing.count (get_speakers speakers_data)
  = Root.speakers_loaded (root speakers_data)
  ∧ Listing.speakers (get_speakers speakers_data) = speakers_data
  ∧ (∀ response lg',
       match_speakers json_loads chat_create api_key model_validate
         speakers_data request sched lg = (Returned response, lg') →
       total_speakers response = Root.speakers_loaded (root speakers_data))
  ∧ (∀ e, load = Err e →
       Root.speakers_loaded (root speakers_data) = 0
       ∧ match_speakers json_loads chat_create api_key model_validate
           speakers_data request sched lg
         = (Raised (mk_exn (HTTPException 500) "Speaker data not loaded"),
            lg)).
Proof.
  intros speakers_data. split; [reflexivity|]. split; [reflexivity|]. split.
  - intros response lg' H.
    destruct (match_speakers_Returned _ _ _ _ _ _ _ _ _ _ H)
      as (ms & _ & _ & Ht & _).
    exact Ht.
  - intros e He. unfold speakers_data. rewrite He. split; reflexivity.
Qed.

(** ** The size of the prompts *)

Lemma length_append a b :
  String.length (a +:+ b) = String.length a + String.length b.
Proof. induction a as [|c a IH]; simpl; [reflexivity|now rewrite IH]. Qed.

Lemma slice_to_length n s :
  String.length (Str.slice_to n s) = Nat.min n (String.length s).
Proof.
  revert s; induction n as [|n IH]; intros [|c s]; simpl; try reflexivity.
  now rewrite IH.
Qed.

Lemma slice_to_length_le n s : String.length (Str.slice_to n s) ≤ n.
Proof. rewrite slice_to_length. lia. Qed.

Lemma slice_to_short n s :
  String.length s ≤ n → Str.slice_to n s = s.
Proof.
  revert s; induction n as [|n IH]; intros [|c s]; simpl; try reflexivity.
  - lia.
  - intros H. rewrite IH; [reflexivity|lia].
Qed.

Lemma intro_length : String.length (Prompt.unlines Prompt.intro) = 134.
Proof. reflexivity. Qed.

Lemma rubric_length : String.length (Prompt.unlines Prompt.rubric) = 1408.
Proof. reflexivity. Qed.

Lemma answer_format_length : String.length Prompt.answer_format = 107.
Proof. reflexivity. Qed.

(** X16.  For an entry whose biography is a text, or is absent, the
    scoring prompt is 1697 characters of fixed text plus the query, the
    three short fields as shown (or [N/A] for an absent one) and at most
    800 characters of biography: however long a biography is, it adds no
    more than 800 characters, and one of at most 800 characters is shown
    whole. *)
Theorem scoring_prompt_length {python : Python} (user_bio : string)
    (d : gmap string json) (bio : string) :
  default (JStr "N/A") (d !! "bio") = JStr bio →
  ∃ prompt,
    Prompt.build user_bio (JDict d) = Ok prompt
    ∧ String.length prompt
      = 1697 + String.length user_bio
        + shown_length "name" d + shown_length "title" d
        + shown_length "organization" d
        + Nat.min 800 (String.length bio)
    ∧ String.length prompt
      ≤ 2497 + String.length user_bio
        + shown_length "name" d + shown_length "title" d
        + shown_length "organization" d
    ∧ (String.length bio ≤ 800 →
       prompt
       = Prompt.text user_bio (default (JStr "N/A") (d !! "name"))
           (default (JStr "N/A") (d !! "title"))
           (default (JStr "N/A") (d !! "organization")) (JStr bio)).
Proof.
  intros Hbio. rewrite build_dict, Hbio.
  cbn [py_slice_to mbind result_mbind result_bind].
  eexists. split; [reflexivity|].
  assert (H : String.length
                (Prompt.text user_bio (default (JStr "N/A") (d !! "name"))
                   (default (JStr "N/A") (d !! "title"))
                   (default (JStr "N/A") (d !! "organization"))
                   (JStr (Str.slice_to 800 bio)))
              = 1697 + String.length user_bio
                + shown_length "name" d + shown_length "title" d
                + shown_length "organization" d
                + Nat.min 800 (String.length bio)).
  { unfold Prompt.text, shown_length.
    rewrite !length_append, intro_length, rubric_length,
      answer_format_length.
    cbn [py_str]. rewrite slice_to_length.
    cbn [String.length Prompt.nl]. lia. }
  split; [exact H|]. split; [rewrite H; lia|].
  intros Hle. now rewrite (slice_to_short 800 bio Hle).
Qed.

Lemma scoring_prompt_length_witness :
  ∃ prompt,
    Prompt.build Example.query Example.ann = Ok prompt
    ∧ String.length prompt = 1832.
Proof.
  destruct (scoring_prompt_length Example.query
              (<["name" := JStr "Ann Lee"]>
                 (<["title" := JStr "Program Manager"]>
                    (<["organization" := JStr "Army Futures Command"]>
                       {["bio" := JStr "Leads counter-drone procurement."]})))
              "Leads counter-drone procurement.")
    as (prompt & Hb & Hlen & _); [vm_compute; reflexivity|].
  exists prompt. split; [exact Hb|]. rewrite Hlen. vm_compute. reflexivity.
Defined.

Lemma run_openai_extract json_loads chat_create content schema_str
    instructions lg :
  run chat_create
    (OpenAI.extract_structured_data json_loads content schema_str
       instructions) lg
  = (match chat_create (length lg)
             [("system", Templates.DATA_EXTRACTION);
              ("user", Templates.structured_extraction schema_str
                         (Str.slice_to 8000 content) instructions)] with
     | Ok (Some text) =>
         match json_loads text with
         | Ok v => Ok v
         | Err e => Err (chained "Error extracting structured data: " e)
         end
     | Ok None =>
         Err (chained "Error extracting structured data: "
                (mk_exn TypeError
                   "the JSON object must be str, bytes or bytearray, not NoneType"))
     | Err e => Err (chained "Error extracting structured data: " e)
     end,
     lg ++ [[("system", Templates.DATA_EXTRACTION);
             ("user", Templates.structured_extraction schema_str
                        (Str.slice_to 8000 content) instructions)]]).
Proof.
  unfold OpenAI.extract_structured_data. cbv zeta.
  generalize (Templates.structured_extraction schema_str
                (Str.slice_to 8000 content) instructions).
  intros prompt. simpl.
  destruct (chat_create _ _) as [[text|]|e]; simpl; try reflexivity.
  now destruct (json_loads text).
Qed.

Lemma structured_extraction_length schema_str content instructions :
  String.length
    (Templates.structured_extraction schema_str content instructions)
  = 179 + String.length schema_str + String.length content
    + match instructions with
      | Some i => if truthy i then 25 + String.length i else 0
      | None => 0
      end.
Proof.
  unfold Templates.structured_extraction.
  rewrite !length_append. cbn [String.length Prompt.nl].
  destruct instructions as [i|]; [destruct (truthy i)|];
    rewrite ?length_append; cbn [String.length]; lia.
Qed.

Lemma structured_extraction_bound n schema_str content instructions :
  String.length
    (Templates.structured_extraction schema_str (Str.slice_to n content)
       instructions)
  ≤ 204 + String.length schema_str
    + String.length (default EmptyString instructions) + n.
Proof.
  rewrite structured_extraction_length.
  pose proof (slice_to_length_le n content) as Hc.
  destruct instructions as [[|c i]|]; simpl; lia.
Qed.

(** X17.  [OpenAIClient.extract_structured_data] sends one request of two
    messages, the data-extraction system prompt and then the user prompt;
    the user prompt holds at most 8000 characters of the content, so its
    length is bounded by 204 plus the lengths of the schema text and of
    the instructions plus 8000.  The reply is handed to [json.loads] as it
    is, with no fence handling, and every failure leaves as an [Exception]
    whose text starts with [Error extracting structured data: ]. *)
Theorem openai_extraction_contract (json_loads : string → result json)
    (chat_create : provider) (content schema_str : string)
    (instructions : option string) (lg : log) :
  let prompt :=
    Templates.structured_extraction schema_str (Str.slice_to 8000 content)
      instructions in
  ∃ out,
    run chat_create
      (OpenAI.extract_structured_data json_loads content schema_str
         instructions) lg
    = (out, lg ++ [[("system", Templates.DATA_EXTRACTION); ("user", prompt)]])
    ∧ String.length prompt
      ≤ 204 + String.length schema_str
        + String.length (default EmptyString instructions) + 8000
    ∧ (∀ text,
         chat_create (length lg)
           [("system", Templates.DATA_EXTRACTION); ("user", prompt)]
         = Ok (Some text) →
         ∀ v, out = Ok v ↔ json_loads text = Ok v)
    ∧ (∀ e, out = Err e →
         exn_cls e = Exception
         ∧ ∃ reason,
             exn_str e = "Error extracting structured data: " +:+ reason).
Proof.
  intros prompt. eexists. split; [apply run_openai_extract|]. fold prompt.
  split; [|split].
  - apply structured_extraction_bound.
  - intros text ->. intros v.
    destruct (json_loads text); split; congruence.
  - intros e. destruct (chat_create _ _) as [[text|]|e0].
    + destruct (json_loads text); [discriminate|].
      intros [= <-]. split; [reflexivity|eauto].
    + intros [= <-]. split; [reflexivity|eauto].
    + intros [= <-]. split; [reflexivity|eauto].
Qed.
